(** * Guided-breathing visualizer: session clock and session state machine

    A shallow embedding of [src/app.js]: the exercise catalog, the shared
    [state] object, the user operations ([togglePlay], [resetToStart],
    [startWithPreset], [startWithRounds], the settings handlers) and the
    per-frame [animate] function, followed by the properties of the
    phase-cycle clock and of the session state machine.

    Numbers.  A JavaScript number is modelled as an exact rational ([Q]);
    [NaN], which the code can produce through a remainder by zero, is a
    separate constructor of [number].  Rounding of binary floating point and
    the infinities are outside the model.  Integer-valued fields (elapsed
    whole seconds, round counters) are [Z]; the phase index is a [nat].

    Effects.  Every operation is a function from the [State] record to the
    [State] record; clock readings ([performance.now()]) are explicit
    arguments, one per call in the source, and animation frames arrive at
    whatever readings the host delivers them.  Drawing, markup, audio and
    the wake lock do not write to [state] and are left out. *)

From Stdlib Require Import QArith Qround ZArith List String Ascii Bool Lia Lqa.
From Stdlib Require Import DecimalString DecimalPos.
Import ListNotations.

Local Open Scope Q_scope.

(** ** JavaScript numbers and the primitives the code uses *)

Module Js.

Inductive number : Type :=
| Num (q : Q)
| NaN.

(** [x < y] on finite numbers. *)
Definition Qltb (x y : Q) : bool := negb (Qle_bool y x).

(** Rounding toward zero, as used by the remainder operator. *)
Definition Qtrunc (q : Q) : Z :=
  if Qle_bool 0 q then Qfloor q else Qceiling q.

(** [x % y]: the result takes the sign of the dividend; a zero divisor
    gives [NaN]. *)
Definition rem (x y : Q) : number :=
  if Qeq_bool y 0 then NaN
  else Num (x - y * inject_Z (Qtrunc (x / y))).

(** Arithmetic and comparisons with a possibly-[NaN] operand: arithmetic
    propagates [NaN], every ordered comparison with [NaN] is false and
    [NaN !== v] is true. *)
Definition sub (a b : number) : number :=
  match a, b with
  | Num x, Num y => Num (x - y)
  | _, _ => NaN
  end.

Definition geb (a b : number) : bool :=
  match a, b with
  | Num x, Num y => Qle_bool y x
  | _, _ => false
  end.

Definition ltb (a b : number) : bool :=
  match a, b with
  | Num x, Num y => Qltb x y
  | _, _ => false
  end.

Definition gtb (a b : number) : bool := ltb b a.

Definition strict_neq (a b : number) : bool :=
  match a, b with
  | Num x, Num y => negb (Qeq_bool x y)
  | _, _ => true
  end.

(** [Math.ceil] and [Math.floor]. *)
Definition ceil (a : number) : number :=
  match a with
  | Num x => Num (inject_Z (Qceiling x))
  | NaN => NaN
  end.

Definition floor (a : number) : number :=
  match a with
  | Num x => Num (inject_Z (Qfloor x))
  | NaN => NaN
  end.

(** Truthiness of a string: only the empty string is falsy. *)
Definition truthy (s : string) : bool :=
  match s with
  | EmptyString => false
  | String _ _ => true
  end.

(** [parseInt(s)] on an ASCII string: leading white space is skipped, an
    optional sign is read, a [0x]/[0X] prefix selects radix 16, and the
    longest prefix of digits is converted; [None] stands for [NaN].  The value is the
    exact integer; the code returns the nearest number it can hold, which
    is the same up to 2^53. *)
Definition isWhite (a : ascii) : bool :=
  let n := nat_of_ascii a in
  ((9 <=? n) && (n <=? 13))%nat || (n =? 32)%nat.

Fixpoint skipWhite (s : string) : string :=
  match s with
  | String a r => if isWhite a then skipWhite r else s
  | EmptyString => EmptyString
  end.

Definition digitValue (a : ascii) : option Z :=
  let n := Z.of_nat (nat_of_ascii a) in
  if ((48 <=? n) && (n <=? 57))%Z then Some (n - 48)%Z
  else if ((97 <=? n) && (n <=? 122))%Z then Some (n - 87)%Z
  else if ((65 <=? n) && (n <=? 90))%Z then Some (n - 55)%Z
  else None.

Fixpoint digitsPrefix (radix : Z) (s : string) (acc : option Z) : option Z :=
  match s with
  | String a r =>
      match digitValue a with
      | Some d =>
          if (d <? radix)%Z
          then digitsPrefix radix r
                 (Some (radix * match acc with Some v => v | None => 0 end + d)%Z)
          else acc
      | None => acc
      end
  | EmptyString => acc
  end.

Definition parseInt (s : string) : option Z :=
  let s1 := skipWhite s in
  let signed :=
    match s1 with
    | String "-"%char r => ((-1)%Z, r)
    | String "+"%char r => (1%Z, r)
    | _ => (1%Z, s1)
    end in
  let based :=
    match snd signed with
    | String "0"%char (String "x"%char r) => (16%Z, r)
    | String "0"%char (String "X"%char r) => (16%Z, r)
    | _ => (10%Z, snd signed)
    end in
  option_map (Z.mul (fst signed)) (digitsPrefix (fst based) (snd based) None).

(** [n || 0] for a number that is an integer or [NaN]. *)
Definition orZero (n : option Z) : Z :=
  match n with
  | Some v => v
  | None => 0%Z
  end.

(** [value.replace(/[^0-9]/g, '')]. *)
Definition isDigit (a : ascii) : bool :=
  let n := nat_of_ascii a in ((48 <=? n) && (n <=? 57))%nat.

Fixpoint keepDigits (s : string) : string :=
  match s with
  | String a r => if isDigit a then String a (keepDigits r) else keepDigits r
  | EmptyString => EmptyString
  end.

(** [n.toString()] for an integer that a number holds exactly and prints
    in plain decimal digits: magnitudes up to 2^53.  (From 1e21 on the code
    prints exponent notation, which is not modelled.) *)
Definition toString (n : Z) : string := NilZero.string_of_int (Z.to_int n).

End Js.

Import Js.

(** ** Exercise catalog *)

Module Catalog.

Record Phase : Type := mkPhase {
  name : string;
  duration : Q;
  color : string
}.

Inductive ExerciseType : Type :=
| box
| fourSevenEight
| longExhale
| coherent.

Definition ExerciseType_eqb (a b : ExerciseType) : bool :=
  match a, b with
  | box, box | fourSevenEight, fourSevenEight
  | longExhale, longExhale | coherent, coherent => true
  | _, _ => false
  end.

Record Range : Type := mkRange {
  rmin : Q;
  rmax : Q;
  rstep : Q;
  rdefault : Q
}.

(** [exerciseTypes[t].getPhases(phaseTime, exhaleDuration)]. *)
Definition getPhases (t : ExerciseType) (phaseTime exhaleDuration : Q)
  : list Phase :=
  match t with
  | box =>
      [ mkPhase "Inhale" phaseTime "#f97316";
        mkPhase "Hold" phaseTime "#fbbf24";
        mkPhase "Exhale" phaseTime "#38bdf8";
        mkPhase "Wait" phaseTime "#22c55e" ]
  | fourSevenEight =>
      [ mkPhase "Inhale" 4 "#f97316";
        mkPhase "Hold" 7 "#fbbf24";
        mkPhase "Exhale" 8 "#38bdf8" ]
  | longExhale =>
      [ mkPhase "Inhale" 4 "#f97316";
        mkPhase "Exhale" exhaleDuration "#38bdf8" ]
  | coherent =>
      [ mkPhase "Inhale" phaseTime "#f97316";
        mkPhase "Exhale" phaseTime "#38bdf8" ]
  end.

Definition hasPhaseTimeSlider (t : ExerciseType) : bool :=
  match t with
  | fourSevenEight => false
  | _ => true
  end.

Definition phaseTimeRange (t : ExerciseType) : option Range :=
  match t with
  | box => Some (mkRange 3 6 1 4)
  | fourSevenEight => None
  | longExhale => Some (mkRange 6 8 1 6)
  | coherent => Some (mkRange (9 # 2) 6 (1 # 2) 5)
  end.

End Catalog.

Import Catalog.

(** ** The shared state object *)

Module Session.

(** The fields of [state] that the operations below read or write.  The
    canvas-only fields ([devicePixelRatio], [viewportWidth],
    [viewportHeight], [prefersReducedMotion]) are not part of the model. *)
Record State : Type := mkState {
  isPlaying : bool;
  count : nat;
  countdown : number;
  totalTime : Z;
  soundEnabled : bool;
  countdownEnabled : bool;
  timeLimit : string;
  sessionComplete : bool;
  timeLimitReached : bool;
  phaseTime : Q;
  exhaleDuration : Q;
  exerciseType : ExerciseType;
  pulseStartTime : option Q;
  hasStarted : bool;
  startTime : option Q;
  targetRounds : Z;
  completedRounds : Z
}.

(** Field assignments [state.f = v]. *)
Definition set_isPlaying (v : bool) (s : State) : State :=
  mkState v (count s) (countdown s) (totalTime s) (soundEnabled s)
    (countdownEnabled s) (timeLimit s) (sessionComplete s) (timeLimitReached
    s) (phaseTime s) (exhaleDuration s) (exerciseType s) (pulseStartTime s)
    (hasStarted s) (startTime s) (targetRounds s) (completedRounds s).

Definition set_count (v : nat) (s : State) : State :=
  mkState (isPlaying s) v (countdown s) (totalTime s) (soundEnabled s)
    (countdownEnabled s) (timeLimit s) (sessionComplete s) (timeLimitReached
    s) (phaseTime s) (exhaleDuration s) (exerciseType s) (pulseStartTime s)
    (hasStarted s) (startTime s) (targetRounds s) (completedRounds s).

Definition set_countdown (v : number) (s : State) : State :=
  mkState (isPlaying s) (count s) v (totalTime s) (soundEnabled s)
    (countdownEnabled s) (timeLimit s) (sessionComplete s) (timeLimitReached
    s) (phaseTime s) (exhaleDuration s) (exerciseType s) (pulseStartTime s)
    (hasStarted s) (startTime s) (targetRounds s) (completedRounds s).

Definition set_totalTime (v : Z) (s : State) : State :=
  mkState (isPlaying s) (count s) (countdown s) v (soundEnabled s)
    (countdownEnabled s) (timeLimit s) (sessionComplete s) (timeLimitReached
    s) (phaseTime s) (exhaleDuration s) (exerciseType s) (pulseStartTime s)
    (hasStarted s) (startTime s) (targetRounds s) (completedRounds s).

Definition set_soundEnabled (v : bool) (s : State) : State :=
  mkState (isPlaying s) (count s) (countdown s) (totalTime s) v
    (countdownEnabled s) (timeLimit s) (sessionComplete s) (timeLimitReached
    s) (phaseTime s) (exhaleDuration s) (exerciseType s) (pulseStartTime s)
    (hasStarted s) (startTime s) (targetRounds s) (completedRounds s).

Definition set_countdownEnabled (v : bool) (s : State) : State :=
  mkState (isPlaying s) (count s) (countdown s) (totalTime s) (soundEnabled
    s) v (timeLimit s) (sessionComplete s) (timeLimitReached s) (phaseTime
    s) (exhaleDuration s) (exerciseType s) (pulseStartTime s) (hasStarted s)
    (startTime s) (targetRounds s) (completedRounds s).

Definition set_timeLimit (v : string) (s : State) : State :=
  mkState (isPlaying s) (count s) (countdown s) (totalTime s) (soundEnabled
    s) (countdownEnabled s) v (sessionComplete s) (timeLimitReached s)
    (phaseTime s) (exhaleDuration s) (exerciseType s) (pulseStartTime s)
    (hasStarted s) (startTime s) (targetRounds s) (completedRounds s).

Definition set_sessionComplete (v : bool) (s : State) : State :=
  mkState (isPlaying s) (count s) (countdown s) (totalTime s) (soundEnabled
    s) (countdownEnabled s) (timeLimit s) v (timeLimitReached s) (phaseTime
    s) (exhaleDuration s) (exerciseType s) (pulseStartTime s) (hasStarted s)
    (startTime s) (targetRounds s) (completedRounds s).

Definition set_timeLimitReached (v : bool) (s : State) : State :=
  mkState (isPlaying s) (count s) (countdown s) (totalTime s) (soundEnabled
    s) (countdownEnabled s) (timeLimit s) (sessionComplete s) v (phaseTime
    s) (exhaleDuration s) (exerciseType s) (pulseStartTime s) (hasStarted s)
    (startTime s) (targetRounds s) (completedRounds s).

Definition set_phaseTime (v : Q) (s : State) : State :=
  mkState (isPlaying s) (count s) (countdown s) (totalTime s) (soundEnabled
    s) (countdownEnabled s) (timeLimit s) (sessionComplete s)
    (timeLimitReached s) v (exhaleDuration s) (exerciseType s)
    (pulseStartTime s) (hasStarted s) (startTime s) (targetRounds s)
    (completedRounds s).

Definition set_exhaleDuration (v : Q) (s : State) : State :=
  mkState (isPlaying s) (count s) (countdown s) (totalTime s) (soundEnabled
    s) (countdownEnabled s) (timeLimit s) (sessionComplete s)
    (timeLimitReached s) (phaseTime s) v (exerciseType s) (pulseStartTime s)
    (hasStarted s) (startTime s) (targetRounds s) (completedRounds s).

Definition set_exerciseType (v : ExerciseType) (s : State) : State :=
  mkState (isPlaying s) (count s) (countdown s) (totalTime s) (soundEnabled
    s) (countdownEnabled s) (timeLimit s) (sessionComplete s)
    (timeLimitReached s) (phaseTime s) (exhaleDuration s) v (pulseStartTime
    s) (hasStarted s) (startTime s) (targetRounds s) (completedRounds s).

Definition set_pulseStartTime (v : option Q) (s : State) : State :=
  mkState (isPlaying s) (count s) (countdown s) (totalTime s) (soundEnabled
    s) (countdownEnabled s) (timeLimit s) (sessionComplete s)
    (timeLimitReached s) (phaseTime s) (exhaleDuration s) (exerciseType s) v
    (hasStarted s) (startTime s) (targetRounds s) (completedRounds s).

Definition set_hasStarted (v : bool) (s : State) : State :=
  mkState (isPlaying s) (count s) (countdown s) (totalTime s) (soundEnabled
    s) (countdownEnabled s) (timeLimit s) (sessionComplete s)
    (timeLimitReached s) (phaseTime s) (exhaleDuration s) (exerciseType s)
    (pulseStartTime s) v (startTime s) (targetRounds s) (completedRounds s).

Definition set_startTime (v : option Q) (s : State) : State :=
  mkState (isPlaying s) (count s) (countdown s) (totalTime s) (soundEnabled
    s) (countdownEnabled s) (timeLimit s) (sessionComplete s)
    (timeLimitReached s) (phaseTime s) (exhaleDuration s) (exerciseType s)
    (pulseStartTime s) (hasStarted s) v (targetRounds s) (completedRounds s).

Definition set_targetRounds (v : Z) (s : State) : State :=
  mkState (isPlaying s) (count s) (countdown s) (totalTime s) (soundEnabled
    s) (countdownEnabled s) (timeLimit s) (sessionComplete s)
    (timeLimitReached s) (phaseTime s) (exhaleDuration s) (exerciseType s)
    (pulseStartTime s) (hasStarted s) (startTime s) v (completedRounds s).

Definition set_completedRounds (v : Z) (s : State) : State :=
  mkState (isPlaying s) (count s) (countdown s) (totalTime s) (soundEnabled
    s) (countdownEnabled s) (timeLimit s) (sessionComplete s)
    (timeLimitReached s) (phaseTime s) (exhaleDuration s) (exerciseType s)
    (pulseStartTime s) (hasStarted s) (startTime s) (targetRounds s) v.

(** The initial [state] literal (sound and countdown off, box breathing at
    four seconds) and [loadSettings], which overwrites the five persisted
    settings with whatever well-typed values storage holds.  A stored value
    is modelled when it is a boolean, a finite number, or one of the four
    exercise names of the catalog; a field that is absent or of another
    type is [None].  A stored number too large for a finite value (1e999)
    and a stored name that is a built-in property of every object
    (constructor), both of which the code accepts, are outside the model. *)
Definition initialState : State :=
  mkState false 0 (Num 4) 0 false false "" false false 4 6 box
          None false None 0 0.

Record Settings : Type := mkSettings {
  savedSoundEnabled : option bool;
  savedCountdownEnabled : option bool;
  savedExerciseType : option ExerciseType;
  savedPhaseTime : option Q;
  savedExhaleDuration : option Q
}.

Definition assignIf {A : Type} (set : A -> State -> State) (v : option A)
  (s : State) : State :=
  match v with
  | Some x => set x s
  | None => s
  end.

Definition loadSettings (saved : option Settings) (s : State) : State :=
  match saved with
  | None => s
  | Some settings =>
      let s := assignIf set_soundEnabled (savedSoundEnabled settings) s in
      let s := assignIf set_countdownEnabled (savedCountdownEnabled settings) s in
      let s := assignIf set_exerciseType (savedExerciseType settings) s in
      let s := assignIf set_phaseTime (savedPhaseTime settings) s in
      assignIf set_exhaleDuration (savedExhaleDuration settings) s
  end.

Definition getCurrentPhases (s : State) : list Phase :=
  getPhases (exerciseType s) (phaseTime s) (exhaleDuration s).

(** [phases.reduce((sum, phase) => sum + phase.duration, 0)]. *)
Definition totalCycle (phases : list Phase) : Q :=
  fold_left (fun sum phase => sum + duration phase) phases 0.

Definition getTotalCycleTime (s : State) : Q :=
  totalCycle (getCurrentPhases s).

(** [phases[i].duration]; every list the catalog returns is non-empty and
    the index is produced by the lookup loop, so the default is never
    read on the catalog's lists. *)
Definition durationAt (phases : list Phase) (i : nat) : Q :=
  duration (nth i phases (mkPhase "" 0 "")).

(** [Math.ceil(phases[0].duration)]. *)
Definition firstCountdown (s : State) : number :=
  ceil (Num (durationAt (getCurrentPhases s) 0)).

(** *** The phase lookup loop of [animate] (lines 580-591)

    [hit] is the loop's test for one phase.  [phaseLoop] walks the
    remaining phases with the loop index [i] and [accumulatedTime];
    [Some (i, accumulatedTime)] is the [break].  When the loop runs to its
    end, [newCount] and [phaseStartTime] keep their initial value [0]. *)
Definition hit (cycleElapsed : number) (accumulatedTime d : Q) : bool :=
  geb cycleElapsed (Num accumulatedTime)
  && ltb cycleElapsed (Num (accumulatedTime + d)).

Fixpoint phaseLoop (cycleElapsed : number) (phases : list Phase) (i : nat)
  (accumulatedTime : Q) : option (nat * Q) :=
  match phases with
  | [] => None
  | p :: rest =>
      if hit cycleElapsed accumulatedTime (duration p)
      then Some (i, accumulatedTime)
      else phaseLoop cycleElapsed rest (S i) (accumulatedTime + duration p)
  end.

Definition findPhase (phases : list Phase) (cycleElapsed : number)
  : nat * Q :=
  match phaseLoop cycleElapsed phases 0 0 with
  | Some r => r
  | None => (0%nat, 0)
  end.

(** *** The countdown policy of [animate] (lines 593-603) *)
Definition hasHalfSecond (currentPhaseDuration : Q) : bool :=
  strict_neq (rem currentPhaseDuration 1) (Num 0).

Definition newCountdownOf (currentPhaseDuration : Q) (phaseElapsed : number)
  : number :=
  let remaining := sub (Num currentPhaseDuration) phaseElapsed in
  if hasHalfSecond currentPhaseDuration
     && gtb remaining (floor (Num currentPhaseDuration))
  then Num currentPhaseDuration
  else ceil remaining.

(** *** Clock quantities of one tick *)

(** [now - state.startTime]: a [null] start time converts to [0]. *)
Definition startTimeValue (s : State) : Q :=
  match startTime s with
  | Some t => t
  | None => 0
  end.

Definition totalElapsedAt (now : Q) (s : State) : Q :=
  (now - startTimeValue s) / 1000.

Definition cycleElapsedAt (now : Q) (s : State) : number :=
  rem (totalElapsedAt now s) (getTotalCycleTime s).

Definition newCountAt (now : Q) (s : State) : nat :=
  fst (findPhase (getCurrentPhases s) (cycleElapsedAt now s)).

Definition phaseStartAt (now : Q) (s : State) : Q :=
  snd (findPhase (getCurrentPhases s) (cycleElapsedAt now s)).

(** [parseInt(state.timeLimit) * 60 || 0]. *)
Definition timeLimitSeconds (s : State) : Z :=
  orZero (option_map (fun n => n * 60)%Z (parseInt (timeLimit s))).

(** [previousCount === phases.length - 1 && newCount === 0]. *)
Definition isWraparound (phases : list Phase) (previousCount newCount : nat)
  : bool :=
  (Z.of_nat previousCount =? Z.of_nat (List.length phases) - 1)%Z
  && (newCount =? 0)%nat.

(** The two completion blocks share their assignments. *)
Definition completeSession (s : State) : State :=
  let s := set_sessionComplete true s in
  let s := set_isPlaying false s in
  set_hasStarted false s.

(** *** [animate]: one animation frame at clock reading [now]

    [progress] and [needsRender] only feed the drawing and the markup, so
    the two guarded assignments [if (v !== state.f) state.f = v] are the
    plain assignments they amount to. *)
Definition animate (now : Q) (s : State) : State :=
  if negb (isPlaying s) then s else
  let phases := getCurrentPhases s in
  let totalElapsed := totalElapsedAt now s in
  let newTotalTime := Qfloor totalElapsed in
  let cycleElapsed := cycleElapsedAt now s in
  let newCount := newCountAt now s in
  let phaseStartTime := phaseStartAt now s in
  let currentPhaseDuration := durationAt phases newCount in
  let phaseElapsed := sub cycleElapsed (Num phaseStartTime) in
  let newCountdown := newCountdownOf currentPhaseDuration phaseElapsed in
  (* if (newTotalTime !== state.totalTime) state.totalTime = newTotalTime *)
  let s := set_totalTime newTotalTime s in
  let s :=
    if truthy (timeLimit s) && negb (timeLimitReached s)
       && (timeLimitSeconds s <=? totalTime s)%Z
    then set_timeLimitReached true s
    else s in
  let previousCount := count s in
  let s := set_count newCount s in
  let s :=
    if negb (count s =? previousCount)%nat then
      let s := set_pulseStartTime (Some now) s in
      let s :=
        if isWraparound phases previousCount newCount then
          let s := set_completedRounds (completedRounds s + 1)%Z s in
          if ExerciseType_eqb (exerciseType s) fourSevenEight
             && (0 <? targetRounds s)%Z
             && (targetRounds s <=? completedRounds s)%Z
          then completeSession s
          else s
        else s in
      if isWraparound phases previousCount newCount && timeLimitReached s
      then completeSession s
      else s
    else s in
  (* if (newCountdown !== state.countdown) state.countdown = newCountdown *)
  set_countdown newCountdown s.

(** *** User operations

    Each start operation reads the clock three times: for
    [pulseStartTime], for [startTime], and inside the [animate()] call it
    makes before returning. *)

(** The playing branch of [togglePlay], up to the [animate()] call. *)
Definition togglePlay_begin (tPulse tStart : Q) (s : State) : State :=
  let s := set_hasStarted true s in
  let s := set_totalTime 0 s in
  let s := set_countdown (firstCountdown s) s in
  let s := set_count 0 s in
  let s := set_sessionComplete false s in
  let s := set_timeLimitReached false s in
  let s := set_completedRounds 0 s in
  let s :=
    if ExerciseType_eqb (exerciseType s) fourSevenEight
       && truthy (timeLimit s)
    then set_targetRounds (orZero (parseInt (timeLimit s))) s
    else set_targetRounds 0 s in
  let s := set_pulseStartTime (Some tPulse) s in
  set_startTime (Some tStart) s.

(** The pausing branch of [togglePlay]. *)
Definition togglePlay_pause (s : State) : State :=
  let s := set_totalTime 0 s in
  let s := set_countdown (firstCountdown s) s in
  let s := set_count 0 s in
  let s := set_sessionComplete false s in
  let s := set_timeLimitReached false s in
  let s := set_hasStarted false s in
  let s := set_targetRounds 0 s in
  let s := set_completedRounds 0 s in
  let s := set_pulseStartTime None s in
  set_startTime None s.

Definition togglePlay (tPulse tStart now : Q) (s : State) : State :=
  let s := set_isPlaying (negb (isPlaying s)) s in
  if isPlaying s
  then animate now (togglePlay_begin tPulse tStart s)
  else togglePlay_pause s.

Definition resetToStart (s : State) : State :=
  let s := set_isPlaying false s in
  let s := set_totalTime 0 s in
  let s := set_countdown (firstCountdown s) s in
  let s := set_count 0 s in
  let s := set_sessionComplete false s in
  let s := set_timeLimit "" s in
  let s := set_timeLimitReached false s in
  let s := set_pulseStartTime None s in
  let s := set_hasStarted false s in
  let s := set_startTime None s in
  let s := set_targetRounds 0 s in
  set_completedRounds 0 s.

Definition toggleSound (s : State) : State :=
  set_soundEnabled (negb (soundEnabled s)) s.

Definition toggleCountdown (s : State) : State :=
  set_countdownEnabled (negb (countdownEnabled s)) s.

Definition handleTimeLimitChange (value : string) (s : State) : State :=
  set_timeLimit (keepDigits value) s.

Definition setExerciseType (type : ExerciseType) (s : State) : State :=
  let s := set_exerciseType type s in
  let s :=
    match phaseTimeRange type with
    | Some range =>
        if hasPhaseTimeSlider type then set_phaseTime (rdefault range) s else s
    | None => s
    end in
  match type, phaseTimeRange type with
  | longExhale, Some range => set_exhaleDuration (rdefault range) s
  | _, _ => s
  end.

(** The [input] handler of the phase-time slider. *)
Definition phaseTimeSliderInput (value : Q) (s : State) : State :=
  match exerciseType s with
  | longExhale => set_exhaleDuration value s
  | _ => set_phaseTime value s
  end.

(** [startWithPreset], up to the [animate()] call. *)
Definition startWithPreset_begin (minutes : Z) (tPulse tStart : Q) (s : State)
  : State :=
  let s := set_timeLimit (toString minutes) s in
  let s := set_targetRounds 0 s in
  let s := set_completedRounds 0 s in
  let s := set_isPlaying true s in
  let s := set_totalTime 0 s in
  let s := set_countdown (firstCountdown s) s in
  let s := set_count 0 s in
  let s := set_sessionComplete false s in
  let s := set_timeLimitReached false s in
  let s := set_pulseStartTime (Some tPulse) s in
  let s := set_hasStarted true s in
  set_startTime (Some tStart) s.

Definition startWithPreset (minutes : Z) (tPulse tStart now : Q) (s : State)
  : State :=
  animate now (startWithPreset_begin minutes tPulse tStart s).

(** [startWithRounds], up to the [animate()] call. *)
Definition startWithRounds_begin (rounds : Z) (tPulse tStart : Q) (s : State)
  : State :=
  let s := set_targetRounds rounds s in
  let s := set_completedRounds 0 s in
  let s := set_timeLimit "" s in
  let s := set_isPlaying true s in
  let s := set_totalTime 0 s in
  let s := set_countdown (firstCountdown s) s in
  let s := set_count 0 s in
  let s := set_sessionComplete false s in
  let s := set_timeLimitReached false s in
  let s := set_pulseStartTime (Some tPulse) s in
  let s := set_hasStarted true s in
  set_startTime (Some tStart) s.

Definition startWithRounds (rounds : Z) (tPulse tStart now : Q) (s : State)
  : State :=
  animate now (startWithRounds_begin rounds tPulse tStart s).

(** A run of animation frames, oldest first. *)
Definition frames (ticks : list Q) (s : State) : State :=
  fold_left (fun st now => animate now st) ticks s.

End Session.

Import Session.

(** ** The controls wired by [render]

    [render] installs the listeners, so which operation can run depends on
    the state: the play/pause button exists unless the session is complete,
    the reset button only when it is, and the settings, the phase-time
    slider, the exercise buttons and the presets only while idle.  An
    animation frame may arrive at any time; [animate] ignores it unless a
    session is playing. *)

Module Ui.

Inductive Event : Type :=
| ClickTogglePlay (tPulse tStart now : Q)
| ClickReset
| ChangeSound
| ChangeCountdown
| InputTimeLimit (value : string)
| ClickExercise (type : ExerciseType)
| InputSlider (value : Q)
| ClickPresetRounds (rounds : Z) (tPulse tStart now : Q)
| ClickPresetMinutes (minutes : Z) (tPulse tStart now : Q)
| Frame (now : Q).

Definition idle (s : State) : bool :=
  negb (isPlaying s) && negb (sessionComplete s).

Definition isFourSevenEight (s : State) : bool :=
  ExerciseType_eqb (exerciseType s) fourSevenEight.

Definition enabled (e : Event) (s : State) : bool :=
  match e with
  | ClickTogglePlay _ _ _ => negb (sessionComplete s)
  | ClickReset => sessionComplete s
  | ChangeSound | ChangeCountdown | InputTimeLimit _ | ClickExercise _ =>
      idle s
  | InputSlider _ => idle s && hasPhaseTimeSlider (exerciseType s)
  | ClickPresetRounds rounds _ _ _ =>
      idle s && isFourSevenEight s
      && ((rounds =? 4) || (rounds =? 6) || (rounds =? 8))%Z
  | ClickPresetMinutes minutes _ _ _ =>
      idle s && negb (isFourSevenEight s)
      && ((minutes =? 2) || (minutes =? 5) || (minutes =? 10))%Z
  | Frame _ => true
  end.

Definition handle (e : Event) (s : State) : State :=
  match e with
  | ClickTogglePlay tPulse tStart now => togglePlay tPulse tStart now s
  | ClickReset => resetToStart s
  | ChangeSound => toggleSound s
  | ChangeCountdown => toggleCountdown s
  | InputTimeLimit value => handleTimeLimitChange value s
  | ClickExercise type => setExerciseType type s
  | InputSlider value => phaseTimeSliderInput value s
  | ClickPresetRounds rounds tPulse tStart now =>
      startWithRounds rounds tPulse tStart now s
  | ClickPresetMinutes minutes tPulse tStart now =>
      startWithPreset minutes tPulse tStart now s
  | Frame now => animate now s
  end.

(** States the page can be in: the start-up state after [loadSettings],
    followed by any sequence of enabled events. *)
Inductive reachable : State -> Prop :=
| reachable_start (saved : option Settings) :
    reachable (loadSettings saved initialState)
| reachable_event (s : State) (e : Event) :
    reachable s -> enabled e s = true -> reachable (handle e s).

(** A script of events from a given state; [None] when some event is not
    enabled where it occurs. *)
Fixpoint run (events : list Event) (s : State) : option State :=
  match events with
  | [] => Some s
  | e :: rest => if enabled e s then run rest (handle e s) else None
  end.

End Ui.

Import Ui.

(** ** Specification-side vocabulary *)

(** [accumulatedTime] after [k] iterations of the lookup loop that began at
    [acc]. *)
Definition startFrom (acc : Q) (phases : list Phase) (k : nat) : Q :=
  fold_left (fun sum phase => sum + duration phase) (firstn k phases) acc.

(** Accumulated start of phase [k]: the durations before it, summed in the
    order the loop adds them. *)
Definition accumulatedStart (phases : list Phase) (k : nat) : Q :=
  startFrom 0 phases k.

(** Phase [k] contains the cycle position. *)
Definition activeAt (phases : list Phase) (cyclePos : number) (k : nat)
  : Prop :=
  match cyclePos with
  | Num c =>
      accumulatedStart phases k <= c
      /\ c < accumulatedStart phases k + durationAt phases k
  | NaN => False
  end.

(** The number [a] is finite and has the value [q]. *)
Definition numIs (a : number) (q : Q) : Prop :=
  match a with
  | Num x => x == q
  | NaN => False
  end.

(** The cycle position for a phase list, a start time and a current time,
    as [animate] computes it. *)
Definition cyclePos (phases : list Phase) (start now : Q) : number :=
  rem ((now - start) / 1000) (totalCycle phases).

(** A duration with a fractional part. *)
Definition fractional (d : Q) : bool :=
  negb (Qeq_bool d (inject_Z (Qfloor d))).

(** The countdown the specification prescribes for a phase of duration [d]
    at phase-local elapsed time [e]. *)
Definition countdownPolicy (d e : Q) : number :=
  if fractional d && Qltb (inject_Z (Qfloor d)) (d - e)
  then Num d
  else Num (inject_Z (Qceiling (d - e))).

(** The elapsed whole seconds at [now] have reached the time limit. *)
Definition limitReachedAt (s : State) (now : Q) : bool :=
  (timeLimitSeconds s <=? Qfloor (totalElapsedAt now s))%Z.

(** The frame at [now] moves the phase index from the last phase to the
    first. *)
Definition wrapsAt (now : Q) (s : State) : bool :=
  negb (newCountAt now s =? count s)%nat
  && isWraparound (getCurrentPhases s) (count s) (newCountAt now s).

(** Between sessions no round target is set, and a round target is only
    ever set on the 4-7-8 pattern: by a rounds preset, which empties the
    time-limit field, or by the play button, which reads the field. *)
Definition targetsInv (s : State) : Prop :=
  (isPlaying s = false -> sessionComplete s = false -> targetRounds s = 0%Z)
  /\ (targetRounds s <> 0%Z ->
      exerciseType s = fourSevenEight
      /\ (timeLimit s = ""%string
          \/ targetRounds s = orZero (parseInt (timeLimit s)))).

(** Between sessions the time-limit flag is clear, and a complete session
    is neither playing nor started. *)
Definition flagsInv (s : State) : Prop :=
  (isPlaying s = false -> sessionComplete s = false ->
   timeLimitReached s = false)
  /\ (sessionComplete s = true ->
      isPlaying s = false /\ hasStarted s = false).

(** Time-limit mode: a time limit is typed or preset and no round target is
    set. *)
Definition timeLimitMode (s : State) : Prop :=
  timeLimit s <> ""%string /\ targetRounds s = 0%Z.

(** The time-limit flag after the frames [ticks] of a session that was in
    state [s]: set already, or set by one of the frames. *)
Definition reachedBy (s : State) (ticks : list Q) : bool :=
  timeLimitReached s || existsb (limitReachedAt s) ticks.

(** The frame at [t] takes the phase index of [s] from the last phase of
    the pattern to phase 0. *)
Definition lastToFirst (s : State) (t : Q) : Prop :=
  count s = (List.length (getCurrentPhases s) - 1)%nat
  /\ count (animate t s) = 0%nat.

(** Counting one more round meets a positive round target on the 4-7-8
    pattern: the test of the round-target block, taken before the
    increment. *)
Definition roundsDoneAt (s : State) : bool :=
  ExerciseType_eqb (exerciseType s) fourSevenEight
  && (0 <? targetRounds s)%Z
  && (targetRounds s <=? completedRounds s + 1)%Z.

(** ** Sample sessions

    Concrete states used to run the model: each is the result of the user
    operations named in its definition, from the initial state. *)

(** Coherent breathing with the slider at 4.5 s; then started with every
    clock reading at 0 ms. *)
Definition coherentIdle : State :=
  phaseTimeSliderInput (9 # 2) (setExerciseType coherent initialState).

Definition coherentSession : State :=
  Eval vm_compute in togglePlay 0 0 0 coherentIdle.

(** The 4-7-8 pattern with a number typed into the rounds field and the
    play button pressed, every clock reading at 0 ms. *)
Definition roundsEvents (n : string) : list Event :=
  [ClickExercise fourSevenEight; InputTimeLimit n; ClickTogglePlay 0 0 0].

Definition typedFour : State :=
  Eval vm_compute in
    togglePlay 0 0 0
      (handleTimeLimitChange "4" (setExerciseType fourSevenEight initialState)).

Definition typedOne : State :=
  Eval vm_compute in
    togglePlay 0 0 0
      (handleTimeLimitChange "1" (setExerciseType fourSevenEight initialState)).

Definition typedTwo : State :=
  Eval vm_compute in
    togglePlay 0 0 0
      (handleTimeLimitChange "2" (setExerciseType fourSevenEight initialState)).

(** Box breathing started after storage held a phase time of 0: every
    phase has duration 0 and the cycle has length 0. *)
Definition zeroPhaseSession : State :=
  Eval vm_compute in
    togglePlay 0 0 0
      (loadSettings (Some (mkSettings None None None (Some 0) None))
         initialState).

(** Coherent breathing at 4.5 s with a limit of three minutes typed in,
    started with the play button. *)
Definition coherentLimitSession : State :=
  Eval vm_compute in
    togglePlay 0 0 0 (handleTimeLimitChange "3" coherentIdle).

(** Box breathing at 4 s (a 16 s cycle) with a one-minute limit typed in,
    started with the play button; and a frame at every whole second up to
    [n] seconds. *)
Definition boxMinuteSession : State :=
  Eval vm_compute in togglePlay 0 0 0 (handleTimeLimitChange "1" initialState).

Definition everySecond (n : nat) : list Q :=
  map (fun k => inject_Z (1000 * Z.of_nat k)) (seq 1 n).

(** ** Display helpers

    The text helpers of the page: [formatTime], [hexToRgba],
    [getInstruction], [getPhaseColor] and the timer line of [render]. *)

Module Display.

(** [s.padStart(2, '0')]. *)
Definition padStart2 (s : string) : string :=
  match String.length s with
  | 0%nat => String "0" (String "0" s)
  | 1%nat => String "0" s
  | _ => s
  end.

(** [formatTime(seconds)] for a whole number of seconds:
    [Math.floor(seconds / 60)] is the floored quotient and [seconds % 60]
    the remainder with the sign of [seconds]. *)
Definition formatTime (seconds : Z) : string :=
  let mins := (seconds / 60)%Z in
  let secs := Z.rem seconds 60 in
  (padStart2 (toString mins) ++ ":" ++ padStart2 (toString secs))%string.

(** [hex.replace('#', '')]: the first occurrence only. *)
Fixpoint removeFirst (c : ascii) (s : string) : string :=
  match s with
  | String a r => if Ascii.eqb a c then r else String a (removeFirst c r)
  | EmptyString => EmptyString
  end.

(** [parseInt(s, 16)]: as [parseInt], with the radix fixed to 16; a
    [0x]/[0X] prefix is skipped. *)
Definition parseInt16 (s : string) : option Z :=
  let s1 := skipWhite s in
  let signed :=
    match s1 with
    | String "-"%char r => ((-1)%Z, r)
    | String "+"%char r => (1%Z, r)
    | _ => (1%Z, s1)
    end in
  let digits :=
    match snd signed with
    | String "0"%char (String "x"%char r) => r
    | String "0"%char (String "X"%char r) => r
    | _ => snd signed
    end in
  option_map (Z.mul (fst signed)) (digitsPrefix 16 digits None).

(** The conversion to a 32-bit signed integer that [>>] and [&] apply to
    their operands; [NaN] converts to 0. *)
Definition toInt32 (n : option Z) : Z :=
  match n with
  | Some v => ((v + 2 ^ 31) mod 2 ^ 32 - 2 ^ 31)%Z
  | None => 0%Z
  end.

(** The three channels [hexToRgba] computes: [(bigint >> 16) & 255],
    [(bigint >> 8) & 255] and [bigint & 255]. *)
Definition hexChannels (hex : string) : Z * Z * Z :=
  let normalized := removeFirst "#"%char hex in
  let bigint := toInt32 (parseInt16 normalized) in
  (Z.land (Z.shiftr bigint 16) 255,
   Z.land (Z.shiftr bigint 8) 255,
   Z.land bigint 255).

(** [hexToRgba(hex, alpha)]; [alphaText] is the text the template prints
    for [alpha]. *)
Definition hexToRgba (hex alphaText : string) : string :=
  let '(r, g, b) := hexChannels hex in
  ("rgba(" ++ toString r ++ ", " ++ toString g ++ ", " ++ toString b
   ++ ", " ++ alphaText ++ ")")%string.

(** [getInstruction(count)] and [getPhaseColor(count)] for a phase index. *)
Definition getInstruction (count : nat) (s : State) : string :=
  let phases := getCurrentPhases s in
  if (count <? List.length phases)%nat
  then name (nth count phases (mkPhase "" 0 ""))
  else ""%string.

Definition getPhaseColor (count : nat) (s : State) : string :=
  let phases := getCurrentPhases s in
  if (count <? List.length phases)%nat
  then color (nth count phases (mkPhase "" 0 ""))
  else "#f97316"%string.

(** The text of the timer line [render] shows while playing (lines
    679-683). *)
Definition timerText (s : State) : string :=
  if ExerciseType_eqb (exerciseType s) fourSevenEight
     && (0 <? targetRounds s)%Z
  then ("Round " ++ toString (completedRounds s + 1) ++ " of "
        ++ toString (targetRounds s))%string
  else ("Total Time: " ++ formatTime (totalTime s))%string.

(** The value [render] shows beside the phase-time slider (line 777). *)
Definition currentValue (s : State) : Q :=
  match exerciseType s with
  | longExhale => exhaleDuration s
  | _ => phaseTime s
  end.

End Display.

Import Display.

(** ** Settings persistence

    Storage holds at most one settings object; [None] is a missing key.  A
    write that throws is caught by [saveSettings] and leaves storage as it
    was.  As for [loadSettings], the numbers stored and saved are finite. *)

Module Persistence.

(** The object [saveSettings] writes. *)
Definition settingsOf (s : State) : Settings :=
  mkSettings (Some (soundEnabled s)) (Some (countdownEnabled s))
             (Some (exerciseType s)) (Some (phaseTime s))
             (Some (exhaleDuration s)).

Definition saveSettings (writeOk : bool) (storage : option Settings)
  (s : State) : option Settings :=
  if writeOk then Some (settingsOf s) else storage.

(** The handlers that call [saveSettings] after their assignments. *)
Definition savesSettings (e : Event) : bool :=
  match e with
  | ChangeSound | ChangeCountdown | ClickExercise _ | InputSlider _ => true
  | _ => false
  end.

(** The page: the state object and storage. *)
Definition Page : Type := (State * option Settings)%type.

Definition handlePage (writeOk : bool) (e : Event) (p : Page) : Page :=
  let s' := handle e (fst p) in
  (s', if savesSettings e then saveSettings writeOk (snd p) s' else snd p).

(** Pages reached from a load of empty storage or of stored settings with
    finite numbers, while storage accepts every write. *)
Inductive pageReachable : Page -> Prop :=
| pageReachable_start (stored : option Settings) :
    pageReachable (loadSettings stored initialState, stored)
| pageReachable_event (p : Page) (e : Event) :
    pageReachable p -> enabled e (fst p) = true ->
    pageReachable (handlePage true e p).

(** The five persisted settings of a state. *)
Definition configOf (s : State) : bool * bool * ExerciseType * Q * Q :=
  (soundEnabled s, countdownEnabled s, exerciseType s, phaseTime s,
   exhaleDuration s).

(** The state a reload of the page starts from. *)
Definition reloaded (p : Page) : State := loadSettings (snd p) initialState.

End Persistence.

Import Persistence.

(** ** More specification-side vocabulary *)

(** The string consists of decimal digits. *)
Fixpoint digitsOnly (s : string) : bool :=
  match s with
  | String a r => isDigit a && digitsOnly r
  | EmptyString => true
  end.

(** The string consists of hexadecimal digits. *)
Definition isHexDigit (a : ascii) : bool :=
  match digitValue a with
  | Some d => (d <? 16)%Z
  | None => false
  end.

Fixpoint hexDigitsOnly (s : string) : bool :=
  match s with
  | String a r => isHexDigit a && hexDigitsOnly r
  | EmptyString => true
  end.

(** What holds of the runtime fields in every state the page reaches. *)
Definition sessionInv (s : State) : Prop :=
  hasStarted s = isPlaying s
  /\ (count s < List.length (getCurrentPhases s))%nat
  /\ (isPlaying s = false -> count s = 0%nat)
  /\ (isPlaying s = true -> startTime s <> None)
  /\ (isPlaying s = false -> sessionComplete s = false ->
      totalTime s = 0%Z /\ completedRounds s = 0%Z
      /\ startTime s = None /\ pulseStartTime s = None)
  /\ (0 <= completedRounds s)%Z
  /\ (isPlaying s = true -> (0 < targetRounds s)%Z ->
      (completedRounds s < targetRounds s)%Z).

(** A round-target session whose time-limit field is empty, as the rounds
    presets start it. *)
Definition roundsMode (target : Z) (s : State) : Prop :=
  exerciseType s = fourSevenEight /\ timeLimit s = ""%string
  /\ timeLimitReached s = false /\ targetRounds s = target
  /\ (0 <= completedRounds s <= target)%Z
  /\ sessionComplete s = (completedRounds s =? target)%Z
  /\ isPlaying s = negb (completedRounds s =? target)%Z.

(** ** Comparisons and rounding *)

Section Numbers.

Lemma Qltb_iff (x y : Q) : Qltb x y = true <-> x < y.
Proof.
  unfold Qltb. rewrite negb_true_iff. split; intro H.
  - apply Qnot_le_lt. intro Hle. apply Qle_bool_iff in Hle. congruence.
  - destruct (Qle_bool y x) eqn:E; [|reflexivity].
    apply Qle_bool_iff in E. exfalso. exact (Qlt_not_le _ _ H E).
Qed.

Lemma Qltb_false_iff (x y : Q) : Qltb x y = false <-> y <= x.
Proof.
  unfold Qltb. rewrite negb_false_iff. apply Qle_bool_iff.
Qed.

Lemma geb_Num (x y : Q) : geb (Num x) (Num y) = true <-> y <= x.
Proof. apply Qle_bool_iff. Qed.

Lemma ltb_Num (x y : Q) : ltb (Num x) (Num y) = true <-> x < y.
Proof. apply Qltb_iff. Qed.

(** An integer between [q - 1] (exclusive) and [q] (inclusive) is the floor
    of [q]. *)
Lemma Qfloor_unique (q : Q) (z : Z) :
  inject_Z z <= q -> q < inject_Z (z + 1) -> Qfloor q = z.
Proof.
  intros Hlo Hhi.
  pose proof (Qfloor_le q) as Hf. pose proof (Qlt_floor q) as Hf'.
  assert (H1 : inject_Z z < inject_Z (Qfloor q + 1))
    by (eapply Qle_lt_trans; eassumption).
  assert (H2 : inject_Z (Qfloor q) < inject_Z (z + 1))
    by (eapply Qle_lt_trans; eassumption).
  rewrite <- Zlt_Qlt in H1, H2. lia.
Qed.

Lemma Qceiling_unique (q : Q) (z : Z) :
  inject_Z (z - 1) < q -> q <= inject_Z z -> Qceiling q = z.
Proof.
  intros Hlo Hhi.
  pose proof (Qle_ceiling q) as Hc. pose proof (Qceiling_lt q) as Hc'.
  assert (H1 : inject_Z (z - 1) < inject_Z (Qceiling q))
    by (eapply Qlt_le_trans; eassumption).
  assert (H2 : inject_Z (Qceiling q - 1) < inject_Z z)
    by (eapply Qlt_le_trans; eassumption).
  rewrite <- Zlt_Qlt in H1, H2. lia.
Qed.

(** Truncation of a quotient in [[0, 1)] is zero. *)
Lemma Qtrunc_unit (q : Q) : 0 <= q -> q < 1 -> Qtrunc q = 0%Z.
Proof.
  intros H0 H1. unfold Qtrunc.
  apply Qle_bool_iff in H0. rewrite H0. apply Qle_bool_iff in H0.
  apply Qfloor_unique; assumption.
Qed.

(** For a non-negative quotient truncation is the floor. *)
Lemma Qtrunc_nonneg (q : Q) : 0 <= q -> Qtrunc q = Qfloor q.
Proof.
  intro H. unfold Qtrunc. apply Qle_bool_iff in H. now rewrite H.
Qed.

(** The remainder of a non-negative dividend by a positive divisor lies in
    [[0, y)]. *)
Lemma rem_range (x y : Q) :
  0 <= x -> 0 < y -> exists r, rem x y = Num r /\ 0 <= r /\ r < y.
Proof.
  intros Hx Hy. unfold rem.
  destruct (Qeq_bool y 0) eqn:E.
  - apply Qeq_bool_iff in E. rewrite E in Hy. exfalso. revert Hy. apply Qlt_irrefl.
  - eexists. split; [reflexivity|].
    assert (Hq : 0 <= x / y) by (apply Qle_shift_div_l; [assumption | lra]).
    rewrite (Qtrunc_nonneg _ Hq).
    pose proof (Qfloor_le (x / y)) as Hf. pose proof (Qlt_floor (x / y)) as Hf'.
    rewrite inject_Z_plus in Hf'. change (inject_Z 1) with 1 in Hf'.
    set (n := inject_Z (Qfloor (x / y))) in *.
    assert (Hxy : x == y * (x / y)) by (field; lra).
    split.
    + assert (y * n <= y * (x / y)) by (apply Qmult_le_l; assumption). lra.
    + assert (y * (x / y) < y * (n + 1)) by (apply Qmult_lt_l; assumption). lra.
Qed.

(** A dividend already in [[0, y)] is its own remainder. *)
Lemma rem_small (x y : Q) :
  0 <= x -> x < y -> exists r, rem x y = Num r /\ r == x.
Proof.
  intros Hx Hy. unfold rem.
  assert (Hpos : 0 < y) by lra.
  destruct (Qeq_bool y 0) eqn:E.
  - apply Qeq_bool_iff in E. lra.
  - eexists. split; [reflexivity|].
    rewrite Qtrunc_unit.
    + change (inject_Z 0) with 0. lra.
    + apply Qle_shift_div_l; [assumption | lra].
    + apply Qlt_shift_div_r; [assumption | lra].
Qed.

(** [d % 1 !== 0] says that [d] is not a whole number. *)
Lemma hasHalfSecond_fractional (d : Q) : hasHalfSecond d = fractional d.
Proof.
  unfold hasHalfSecond, fractional, rem, strict_neq.
  change (Qeq_bool 1 0) with false. cbv iota.
  f_equal.
  assert (Hd : d / 1 == d) by (field).
  destruct (Qeq_bool d (inject_Z (Qfloor d))) eqn:E.
  - apply Qeq_bool_iff in E. apply Qeq_bool_iff.
    assert (Ht : Qtrunc (d / 1) = Qfloor d).
    { unfold Qtrunc. rewrite (Qfloor_comp _ _ Hd), (Qceiling_comp _ _ Hd).
      destruct (Qle_bool 0 (d / 1)); [reflexivity|].
      rewrite (Qceiling_comp _ _ E), (Qfloor_comp _ _ E).
      now rewrite Qceiling_Z, Qfloor_Z. }
    rewrite Ht. lra.
  - apply not_true_iff_false. intro H. apply Qeq_bool_iff in H.
    apply not_true_iff_false in E. apply E. apply Qeq_bool_iff.
    set (t := Qtrunc (d / 1)) in *.
    assert (Hdt : d == inject_Z t) by lra.
    rewrite (Qfloor_comp _ _ Hdt), Qfloor_Z. exact Hdt.
Qed.

End Numbers.

(** ** The phase lookup loop *)

Section PhaseLookup.

Lemma startFrom_0 (acc : Q) (phases : list Phase) :
  startFrom acc phases 0 = acc.
Proof. reflexivity. Qed.

Lemma startFrom_S (acc : Q) (p : Phase) (rest : list Phase) (k : nat) :
  startFrom acc (p :: rest) (S k) = startFrom (acc + duration p) rest k.
Proof. reflexivity. Qed.

Lemma durationAt_S (p : Phase) (rest : list Phase) (k : nat) :
  durationAt (p :: rest) (S k) = durationAt rest k.
Proof. reflexivity. Qed.

Lemma hit_active (phases : list Phase) (c : number) (k : nat) :
  hit c (accumulatedStart phases k) (durationAt phases k) = true
  <-> activeAt phases c k.
Proof.
  unfold hit, activeAt. destruct c as [q|]; simpl.
  - rewrite andb_true_iff, Qle_bool_iff, Qltb_iff. reflexivity.
  - split; [discriminate | contradiction].
Qed.

(** A [break] at index [j] happens at the first phase that passes the
    test, with [phaseStartTime] the accumulated start of that phase. *)
Lemma phaseLoop_Some (c : number) (phases : list Phase) :
  forall (i : nat) (acc : Q) (j : nat) (st : Q),
    phaseLoop c phases i acc = Some (j, st) ->
    exists k, j = (i + k)%nat /\ (k < List.length phases)%nat
      /\ st = startFrom acc phases k
      /\ hit c (startFrom acc phases k) (durationAt phases k) = true
      /\ forall k', (k' < k)%nat ->
           hit c (startFrom acc phases k') (durationAt phases k') = false.
Proof.
  induction phases as [|p rest IH]; intros i acc j st H; simpl in H.
  - discriminate.
  - destruct (hit c acc (duration p)) eqn:E.
    + inversion H; subst j st. exists 0%nat.
      repeat split; simpl; try lia; try assumption.
    + apply IH in H. destruct H as (k & Hj & Hk & Hst & Hhit & Hfirst).
      exists (S k). rewrite startFrom_S, durationAt_S.
      repeat split; simpl; try lia; try assumption.
      intros [|k'] Hk'.
      * exact E.
      * rewrite startFrom_S, durationAt_S. apply Hfirst. lia.
Qed.

(** The loop runs to its end only when no phase passes the test. *)
Lemma phaseLoop_None (c : number) (phases : list Phase) :
  forall (i : nat) (acc : Q),
    phaseLoop c phases i acc = None <->
    forall k, (k < List.length phases)%nat ->
      hit c (startFrom acc phases k) (durationAt phases k) = false.
Proof.
  induction phases as [|p rest IH]; intros i acc; simpl.
  - split; [intros _ k Hk; lia | reflexivity].
  - destruct (hit c acc (duration p)) eqn:E.
    + split; [discriminate|]. intro H.
      specialize (H 0%nat ltac:(lia)). simpl in H.
      change (startFrom acc (p :: rest) 0) with acc in H.
      change (durationAt (p :: rest) 0) with (duration p) in H. congruence.
    + rewrite IH. split; intros H k Hk.
      * destruct k as [|k]; [exact E|].
        rewrite startFrom_S, durationAt_S. apply H. lia.
      * specialize (H (S k) ltac:(lia)).
        now rewrite startFrom_S, durationAt_S in H.
Qed.

(** The first phase that contains the cycle position is the one the lookup
    reports, together with its accumulated start. *)
Lemma findPhase_first (phases : list Phase) (c : number) (k : nat) :
  (k < List.length phases)%nat ->
  activeAt phases c k ->
  (forall j, (j < k)%nat -> ~ activeAt phases c j) ->
  findPhase phases c = (k, accumulatedStart phases k).
Proof.
  intros Hk Hact Hfirst. unfold findPhase.
  destruct (phaseLoop c phases 0 0) as [[j st]|] eqn:E.
  - apply phaseLoop_Some in E.
    destruct E as (k0 & Hj & Hk0 & Hst & Hhit & Hmin). simpl in Hj. subst j st.
    change (startFrom 0 phases) with (accumulatedStart phases) in *.
    assert (k0 = k) as ->; [|reflexivity].
    destruct (Nat.lt_trichotomy k0 k) as [Hlt | [Heq | Hgt]]; [|exact Heq|].
    + exfalso. apply (Hfirst k0 Hlt). now apply hit_active.
    + exfalso. apply hit_active in Hact. rewrite (Hmin k Hgt) in Hact.
      discriminate.
  - exfalso. apply hit_active in Hact. unfold accumulatedStart in Hact.
    rewrite (proj1 (phaseLoop_None c phases 0%nat 0) E k Hk) in Hact.
    discriminate.
Qed.

(** When no phase contains the cycle position, the lookup reports index
    [0] and start [0], the initial values of its variables. *)
Lemma findPhase_none (phases : list Phase) (c : number) :
  (forall k, (k < List.length phases)%nat -> ~ activeAt phases c k) ->
  findPhase phases c = (0%nat, 0).
Proof.
  intro Hnone. unfold findPhase.
  destruct (phaseLoop c phases 0 0) as [[j st]|] eqn:E; [|reflexivity].
  exfalso. apply phaseLoop_Some in E.
  destruct E as (k0 & _ & Hk0 & _ & Hhit & _).
  apply (Hnone k0 Hk0). now apply hit_active.
Qed.

(** The reported index is inside a non-empty phase list, and the reported
    start is the accumulated start of the reported index. *)
Lemma findPhase_index (phases : list Phase) (c : number) :
  phases <> [] -> (fst (findPhase phases c) < List.length phases)%nat.
Proof.
  intro Hne. unfold findPhase.
  destruct (phaseLoop c phases 0 0) as [[j st]|] eqn:E; simpl.
  - apply phaseLoop_Some in E. destruct E as (k & Hj & Hk & _). simpl in Hj.
    now subst j.
  - destruct phases; [congruence | simpl; lia].
Qed.

Lemma findPhase_start (phases : list Phase) (c : number) :
  snd (findPhase phases c)
  = accumulatedStart phases (fst (findPhase phases c)).
Proof.
  unfold findPhase.
  destruct (phaseLoop c phases 0 0) as [[j st]|] eqn:E; simpl.
  - apply phaseLoop_Some in E. destruct E as (k & Hj & _ & Hst & _).
    simpl in Hj. now subst j st.
  - reflexivity.
Qed.

End PhaseLookup.

(** ** Accumulated starts tile the cycle *)

Section Tiling.

Lemma startFrom_succ (phases : list Phase) :
  forall (acc : Q) (k : nat),
    (k < List.length phases)%nat ->
    startFrom acc phases (S k)
    = startFrom acc phases k + durationAt phases k.
Proof.
  induction phases as [|p rest IH]; intros acc k Hk; simpl in Hk.
  - lia.
  - destruct k as [|k].
    + reflexivity.
    + rewrite startFrom_S, (startFrom_S acc p rest k), durationAt_S.
      apply IH. lia.
Qed.

Lemma startFrom_all (phases : list Phase) (acc : Q) :
  startFrom acc phases (List.length phases)
  = fold_left (fun sum phase => sum + duration phase) phases acc.
Proof.
  unfold startFrom. now rewrite firstn_all.
Qed.

Lemma accumulatedStart_total (phases : list Phase) :
  accumulatedStart phases (List.length phases) = totalCycle phases.
Proof. apply startFrom_all. Qed.

(** A position in [[0, accumulatedStart n)] lies in one of the first [n]
    phases. *)
Lemma some_phase_active (phases : list Phase) (c : Q) :
  forall n, (n <= List.length phases)%nat ->
    0 <= c -> c < accumulatedStart phases n ->
    exists k, (k < n)%nat /\ activeAt phases (Num c) k.
Proof.
  induction n as [|n IH]; intros Hn H0 Hc.
  - exfalso. unfold accumulatedStart in Hc. rewrite startFrom_0 in Hc. lra.
  - destruct (Qlt_le_dec c (accumulatedStart phases n)) as [Hlt | Hge].
    + destruct (IH ltac:(lia) H0 Hlt) as (k & Hk & Hact).
      exists k. split; [lia | exact Hact].
    + exists n. split; [lia|]. simpl. split; [exact Hge|].
      unfold accumulatedStart in *.
      rewrite startFrom_succ in Hc by lia. exact Hc.
Qed.

(** With non-negative durations the accumulated starts do not decrease. *)
Lemma accumulatedStart_mono (phases : list Phase) :
  (forall p, In p phases -> 0 <= duration p) ->
  forall j k, (j <= k)%nat -> (k <= List.length phases)%nat ->
    accumulatedStart phases j <= accumulatedStart phases k.
Proof.
  intros Hpos j k Hjk. induction Hjk as [|k Hjk IH]; intro Hk.
  - apply Qle_refl.
  - unfold accumulatedStart in *. rewrite startFrom_succ by lia.
    assert (0 <= durationAt phases k).
    { apply Hpos. unfold durationAt. apply nth_In. lia. }
    specialize (IH ltac:(lia)). lra.
Qed.

(** With non-negative durations, a position at offset [e] inside phase [k]
    is in no earlier phase, so the lookup reports [k]. *)
Lemma findPhase_in_phase (phases : list Phase) (k : nat) (c e : Q) :
  (forall p, In p phases -> 0 <= duration p) ->
  (k < List.length phases)%nat ->
  c == accumulatedStart phases k + e ->
  0 <= e -> e < durationAt phases k ->
  findPhase phases (Num c) = (k, accumulatedStart phases k).
Proof.
  intros Hpos Hk Hc He0 He1. apply findPhase_first.
  - exact Hk.
  - simpl. split; lra.
  - intros j Hj [_ Hact].
    assert (Hmono : accumulatedStart phases (S j) <= accumulatedStart phases k)
      by (apply accumulatedStart_mono; [assumption | lia | lia]).
    unfold accumulatedStart in *. rewrite startFrom_succ in Hmono by lia. lra.
Qed.

(** The lookup reports a phase that contains the cycle position whenever
    the cycle has positive length and the clock has not gone backwards. *)
Lemma findPhase_active (phases : list Phase) (start now : Q) :
  0 < totalCycle phases -> start <= now ->
  activeAt phases (cyclePos phases start now)
           (fst (findPhase phases (cyclePos phases start now))).
Proof.
  intros Htotal Hnow. unfold cyclePos.
  assert (Hel : 0 <= (now - start) / 1000)
    by (apply Qle_shift_div_l; [reflexivity | lra]).
  destruct (rem_range _ _ Hel Htotal) as (r & -> & Hr0 & Hr1).
  rewrite <- accumulatedStart_total in Hr1.
  destruct (some_phase_active phases r _ (Nat.le_refl _) Hr0 Hr1)
    as (k & Hk & Hact).
  unfold findPhase.
  destruct (phaseLoop (Num r) phases 0 0) as [[j st]|] eqn:E.
  - apply phaseLoop_Some in E.
    destruct E as (k0 & Hj & _ & _ & Hhit & _). simpl in Hj. subst j.
    simpl fst. now apply hit_active.
  - exfalso. apply hit_active in Hact. unfold accumulatedStart in Hact.
    rewrite (proj1 (phaseLoop_None _ phases 0%nat 0) E k Hk) in Hact.
    discriminate.
Qed.

End Tiling.

(** ** What one frame does to each field *)

Section Frame.

Variable now : Q.
Variable s : State.

Lemma animate_idle : isPlaying s = false -> animate now s = s.
Proof. intro H. unfold animate. now rewrite H. Qed.

Hypothesis playing : isPlaying s = true.

Ltac frame_cases :=
  unfold animate; rewrite playing; cbn [negb];
  repeat match goal with
         | |- context [if ?b then _ else _] => destruct b
         end; reflexivity.

Lemma animate_timeLimit : timeLimit (animate now s) = timeLimit s.
Proof. frame_cases. Qed.

Lemma animate_targetRounds : targetRounds (animate now s) = targetRounds s.
Proof. frame_cases. Qed.

Lemma animate_exerciseType : exerciseType (animate now s) = exerciseType s.
Proof. frame_cases. Qed.

Lemma animate_phaseTime : phaseTime (animate now s) = phaseTime s.
Proof. frame_cases. Qed.

Lemma animate_exhaleDuration :
  exhaleDuration (animate now s) = exhaleDuration s.
Proof. frame_cases. Qed.

Lemma animate_startTime : startTime (animate now s) = startTime s.
Proof. frame_cases. Qed.

Lemma animate_soundEnabled : soundEnabled (animate now s) = soundEnabled s.
Proof. frame_cases. Qed.

Lemma animate_countdownEnabled :
  countdownEnabled (animate now s) = countdownEnabled s.
Proof. frame_cases. Qed.

Lemma animate_count : count (animate now s) = newCountAt now s.
Proof. frame_cases. Qed.

Lemma animate_totalTime :
  totalTime (animate now s) = Qfloor (totalElapsedAt now s).
Proof. frame_cases. Qed.

Lemma animate_countdown :
  countdown (animate now s)
  = newCountdownOf (durationAt (getCurrentPhases s) (newCountAt now s))
      (sub (cycleElapsedAt now s) (Num (phaseStartAt now s))).
Proof. frame_cases. Qed.

End Frame.

(** ** One frame in closed form *)

Section FrameClosedForm.

Ltac unfold_setters :=
  cbn
    [set_isPlaying set_count set_countdown set_totalTime set_soundEnabled
     set_countdownEnabled set_timeLimit set_sessionComplete
     set_timeLimitReached set_phaseTime set_exhaleDuration set_exerciseType
     set_pulseStartTime set_hasStarted set_startTime set_targetRounds
     set_completedRounds completeSession
     isPlaying count countdown totalTime soundEnabled countdownEnabled
     timeLimit sessionComplete timeLimitReached phaseTime exhaleDuration
     exerciseType pulseStartTime hasStarted startTime targetRounds
     completedRounds].

Lemma animate_playing (now : Q) (s : State) :
  isPlaying s = true ->
  animate now s
  = let reached :=
      timeLimitReached s || (truthy (timeLimit s) && limitReachedAt s now) in
    let finished := wrapsAt now s && (roundsDoneAt s || reached) in
    mkState (negb finished)
      (newCountAt now s)
      (newCountdownOf (durationAt (getCurrentPhases s) (newCountAt now s))
         (sub (cycleElapsedAt now s) (Num (phaseStartAt now s))))
      (Qfloor (totalElapsedAt now s))
      (soundEnabled s) (countdownEnabled s) (timeLimit s)
      (sessionComplete s || finished)
      reached
      (phaseTime s) (exhaleDuration s) (exerciseType s)
      (if (newCountAt now s =? count s)%nat
       then pulseStartTime s else Some now)
      (hasStarted s && negb finished)
      (startTime s) (targetRounds s)
      (completedRounds s + if wrapsAt now s then 1 else 0)%Z.
Proof.
  intro playing.
  unfold animate, wrapsAt, roundsDoneAt, limitReachedAt, timeLimitSeconds.
  rewrite playing. cbv zeta. cbn [negb].
  set (nc := newCountAt now s). set (el := Qfloor (totalElapsedAt now s)).
  set (cd := newCountdownOf _ _). set (ph := getCurrentPhases s).
  clearbody nc el cd ph.
  destruct s as [pl cnt cdn tt se ce tl sc tr pt ed et ps hs st tg cr].
  simpl in playing. subst pl. unfold_setters.
  destruct tr, (truthy tl),
    (orZero (option_map (fun n : Z => (n * 60)%Z) (parseInt tl)) <=? el)%Z;
    cbn [andb orb negb]; unfold_setters;
    (destruct (nc =? cnt)%nat; cbn [andb orb negb]; unfold_setters;
     [ now rewrite ?orb_false_r, ?andb_true_r, ?Z.add_0_r | ]);
    (destruct (isWraparound ph cnt nc); cbn [andb orb negb]; unfold_setters;
     [ | now rewrite ?orb_false_r, ?andb_true_r, ?Z.add_0_r ]);
    destruct (ExerciseType_eqb et fourSevenEight), (0 <? tg)%Z,
      (tg <=? cr + 1)%Z;
    cbn [andb orb negb]; unfold_setters; cbn [andb orb negb];
    now rewrite ?orb_false_r, ?orb_true_r, ?andb_true_r, ?andb_false_r.
Qed.

End FrameClosedForm.

(** ** Per-field consequences of the closed form *)

Section FrameFlags.

Variable now : Q.
Variable s : State.
Hypothesis playing : isPlaying s = true.

Lemma animate_timeLimitReached :
  timeLimitReached (animate now s)
  = timeLimitReached s || (truthy (timeLimit s) && limitReachedAt s now).
Proof. now rewrite animate_playing. Qed.

Lemma animate_completedRounds :
  completedRounds (animate now s)
  = (completedRounds s + if wrapsAt now s then 1 else 0)%Z.
Proof. now rewrite animate_playing. Qed.

Lemma animate_sessionComplete :
  sessionComplete (animate now s)
  = sessionComplete s
    || (wrapsAt now s && (roundsDoneAt s || timeLimitReached (animate now s))).
Proof. now rewrite animate_playing. Qed.

Lemma animate_isPlaying :
  isPlaying (animate now s)
  = negb (wrapsAt now s && (roundsDoneAt s || timeLimitReached (animate now s))).
Proof. now rewrite animate_playing. Qed.

End FrameFlags.

(** The clock quantities of a frame depend on the state only through the
    pattern, its parameters and the start time, none of which a frame
    changes. *)
Lemma animate_getCurrentPhases (now : Q) (s : State) :
  getCurrentPhases (animate now s) = getCurrentPhases s.
Proof.
  destruct (isPlaying s) eqn:E.
  - unfold getCurrentPhases.
    now rewrite animate_exerciseType, animate_phaseTime,
      animate_exhaleDuration.
  - now rewrite animate_idle.
Qed.

Lemma animate_startTimeValue (now : Q) (s : State) :
  startTimeValue (animate now s) = startTimeValue s.
Proof.
  destruct (isPlaying s) eqn:E.
  - unfold startTimeValue. now rewrite animate_startTime.
  - now rewrite animate_idle.
Qed.

Lemma animate_keeps_timeLimit (now : Q) (s : State) :
  timeLimit (animate now s) = timeLimit s.
Proof.
  destruct (isPlaying s) eqn:E.
  - now apply animate_timeLimit.
  - now rewrite animate_idle.
Qed.

Lemma animate_keeps_targetRounds (now : Q) (s : State) :
  targetRounds (animate now s) = targetRounds s.
Proof.
  destruct (isPlaying s) eqn:E.
  - now apply animate_targetRounds.
  - now rewrite animate_idle.
Qed.

Lemma animate_keeps_exerciseType (now : Q) (s : State) :
  exerciseType (animate now s) = exerciseType s.
Proof.
  destruct (isPlaying s) eqn:E.
  - now apply animate_exerciseType.
  - now rewrite animate_idle.
Qed.

Lemma animate_limitReachedAt (now t : Q) (s : State) :
  limitReachedAt (animate now s) t = limitReachedAt s t.
Proof.
  unfold limitReachedAt, timeLimitSeconds, totalElapsedAt.
  now rewrite animate_keeps_timeLimit, animate_startTimeValue.
Qed.

(** ** Scripts of events *)

(** A script of enabled events leads to a reachable state. *)
Lemma run_reachable (events : list Event) :
  forall s s', reachable s -> run events s = Some s' -> reachable s'.
Proof.
  induction events as [|e rest IH]; intros s s' Hr Hrun; simpl in Hrun.
  - now inversion Hrun; subst.
  - destruct (enabled e s) eqn:En; [|discriminate].
    apply (IH (handle e s)); [|exact Hrun].
    now apply reachable_event.
Qed.

Lemma initialState_reachable : reachable initialState.
Proof. exact (reachable_start None). Qed.

Lemma zeroPhaseSession_reachable : reachable zeroPhaseSession.
Proof.
  apply (run_reachable [ClickTogglePlay 0 0 0]
           (loadSettings (Some (mkSettings None None None (Some 0) None))
              initialState)).
  - apply reachable_start.
  - vm_compute. reflexivity.
Qed.

(** The sample sessions are what their definitions evaluate. *)
Lemma sample_sessions_unfold :
  coherentSession = togglePlay 0 0 0 coherentIdle
  /\ typedFour
     = togglePlay 0 0 0
         (handleTimeLimitChange "4"
            (setExerciseType fourSevenEight initialState))
  /\ typedOne
     = togglePlay 0 0 0
         (handleTimeLimitChange "1"
            (setExerciseType fourSevenEight initialState))
  /\ typedTwo
     = togglePlay 0 0 0
         (handleTimeLimitChange "2"
            (setExerciseType fourSevenEight initialState))
  /\ zeroPhaseSession
     = togglePlay 0 0 0
         (loadSettings (Some (mkSettings None None None (Some 0) None))
            initialState)
  /\ boxMinuteSession
     = togglePlay 0 0 0 (handleTimeLimitChange "1" initialState).
Proof.
  repeat split; vm_compute; reflexivity.
Qed.

Lemma coherentIdle_reachable : reachable coherentIdle.
Proof.
  apply (run_reachable [ClickExercise coherent; InputSlider (9 # 2)]
           initialState _ initialState_reachable).
  vm_compute. reflexivity.
Qed.

(** ** The session clock *)

(** The cycle position a frame uses is that of the current pattern's phase
    list, the start time and the clock reading. *)
Lemma cycleElapsedAt_cyclePos (now : Q) (s : State) :
  cycleElapsedAt now s
  = cyclePos (getCurrentPhases s) (startTimeValue s) now.
Proof. reflexivity. Qed.

(** Every pattern of the catalog has at least one phase. *)
Lemma getCurrentPhases_nonempty (s : State) : getCurrentPhases s <> [].
Proof.
  unfold getCurrentPhases. destruct (exerciseType s); discriminate.
Qed.

(** C1, as the code has it.  For every phase list, start time and current
    time, the lookup of a frame selects the first phase whose accumulated
    start is at most the cycle position and whose accumulated start plus
    duration is above it, and reports that accumulated start.  When no phase
    contains the cycle position, the lookup selects index 0 with phase start
    0, the values its variables were initialised with, and not the last
    phase.  A playing frame stores the selected index in [count]. *)
Theorem phase_lookup_first_match_or_initial
  (phases : list Phase) (start now : Q) :
  let c := cyclePos phases start now in
  (forall k, (k < List.length phases)%nat ->
     activeAt phases c k ->
     (forall j, (j < k)%nat -> ~ activeAt phases c j) ->
     findPhase phases c = (k, accumulatedStart phases k))
  /\ ((forall k, (k < List.length phases)%nat -> ~ activeAt phases c k) ->
      findPhase phases c = (0%nat, 0))
  /\ (forall s, isPlaying s = true -> getCurrentPhases s = phases ->
      startTimeValue s = start ->
      count (animate now s) = fst (findPhase phases c)).
Proof.
  intro c. repeat split.
  - intros k Hk Hact Hfirst. now apply findPhase_first.
  - apply findPhase_none.
  - intros s Hplay Hph Hst. rewrite (animate_count now s Hplay).
    unfold newCountAt. rewrite cycleElapsedAt_cyclePos, Hph, Hst. reflexivity.
Qed.

(** The 4-7-8 pattern five seconds into a cycle is in its second phase; a
    clock reading before the start time is in no phase. *)
Lemma phase_lookup_first_match_or_initial_witness :
  findPhase (getPhases fourSevenEight 4 6)
            (cyclePos (getPhases fourSevenEight 4 6) 0 5000)
  = (1%nat, accumulatedStart (getPhases fourSevenEight 4 6) 1)
  /\ findPhase (getPhases longExhale 4 6)
               (cyclePos (getPhases longExhale 4 6) 1000 0)
     = (0%nat, 0).
Proof.
  split.
  - apply (proj1 (phase_lookup_first_match_or_initial
                    (getPhases fourSevenEight 4 6) 0 5000)).
    + simpl. lia.
    + vm_compute. split; [discriminate | reflexivity].
    + intros j Hj. assert (j = 0%nat) as -> by lia.
      vm_compute. intros [_ H]. discriminate H.
  - apply (proj1 (proj2 (phase_lookup_first_match_or_initial
                           (getPhases longExhale 4 6) 1000 0))).
    intros k Hk. simpl in Hk.
    assert (k = 0%nat \/ k = 1%nat) as [-> | ->] by lia;
      vm_compute; intros [H _]; apply H; reflexivity.
Defined.

(** C1, as stated, fails: with the long-exhale pattern (4 s and 6 s), start
    time 1000 ms and clock reading 0 ms the cycle position is -1, no phase
    contains it, and the lookup selects index 0 while the last phase has
    index 1.  Likewise in the running program: when storage held a phase
    time of 0, the cycle position of a box-breathing frame is [NaN], no
    phase contains it, and the frame selects index 0, not the last index
    3. *)
Lemma phase_lookup_fallback_is_not_last :
  (let phases := getPhases longExhale 4 6 in
   let c := cyclePos phases 1000 0 in
   phases <> []
   /\ numIs c (-1)
   /\ (forall k, (k < List.length phases)%nat -> ~ activeAt phases c k)
   /\ fst (findPhase phases c) = 0%nat
   /\ fst (findPhase phases c) <> (List.length phases - 1)%nat)
  /\ (let s := zeroPhaseSession in
      reachable s
      /\ isPlaying s = true
      /\ cycleElapsedAt 1000 s = NaN
      /\ (forall k, ~ activeAt (getCurrentPhases s) (cycleElapsedAt 1000 s) k)
      /\ count (animate 1000 s) = 0%nat
      /\ (List.length (getCurrentPhases s) - 1)%nat = 3%nat).
Proof.
  split.
  - cbv zeta. split; [discriminate|]. split; [reflexivity|].
    split; [|split; [reflexivity | vm_compute; discriminate]].
    intros k Hk. simpl in Hk.
    assert (k = 0%nat \/ k = 1%nat) as [-> | ->] by lia;
      vm_compute; intros [H _]; apply H; reflexivity.
  - cbv zeta. split; [exact zeroPhaseSession_reachable|].
    split; [reflexivity|]. split; [reflexivity|].
    split; [|split; reflexivity].
    intros k H. exact H.
Qed.

(** C8.  For every non-empty phase list with strictly positive cycle
    length and every clock reading at or after the start time, the phase
    index a frame computes is a valid index into the list; moreover the
    phase at that index contains the cycle position.  On every state of a
    playing session the stored index is valid for the current pattern. *)
Theorem phase_index_in_range (phases : list Phase) (start now : Q) :
  phases <> [] -> 0 < totalCycle phases -> start <= now ->
  let i := fst (findPhase phases (cyclePos phases start now)) in
  (0 <= i < List.length phases)%nat
  /\ activeAt phases (cyclePos phases start now) i
  /\ (forall s, isPlaying s = true ->
        (count (animate now s) < List.length (getCurrentPhases s))%nat).
Proof.
  intros Hne Htotal Hnow i. repeat split.
  - lia.
  - now apply findPhase_index.
  - now apply findPhase_active.
  - intros s Hplay. rewrite (animate_count now s Hplay).
    apply findPhase_index, getCurrentPhases_nonempty.
Qed.

Lemma phase_index_in_range_witness :
  let phases := getPhases box 4 6 in
  let i := fst (findPhase phases (cyclePos phases 0 13500)) in
  (0 <= i < 4)%nat /\ activeAt phases (cyclePos phases 0 13500) i.
Proof.
  cbv zeta.
  destruct (phase_index_in_range (getPhases box 4 6) 0 13500) as (H1 & H2 & _).
  - discriminate.
  - reflexivity.
  - discriminate.
  - split; [exact H1 | exact H2].
Defined.

(** ** The countdown *)

(** The countdown a frame computes, in the specification's terms: [e] is
    the phase-local elapsed time, given up to equality of values. *)
Lemma newCountdownOf_policy (d e : Q) (phaseElapsed : number) :
  numIs phaseElapsed e ->
  newCountdownOf d phaseElapsed = countdownPolicy d e.
Proof.
  destruct phaseElapsed as [x|]; simpl; [|contradiction]. intro Hx.
  unfold newCountdownOf, countdownPolicy. rewrite hasHalfSecond_fractional.
  unfold sub, gtb, floor, ltb, ceil.
  assert (Hrem : d - x == d - e) by (rewrite Hx; reflexivity).
  assert (Hlt : Qltb (inject_Z (Qfloor d)) (d - x)
                = Qltb (inject_Z (Qfloor d)) (d - e)).
  { apply eq_true_iff_eq. rewrite !Qltb_iff, Hrem. reflexivity. }
  rewrite Hlt, (Qceiling_comp _ _ Hrem). reflexivity.
Qed.

(** In a playing session whose phases have non-negative durations, a cycle
    position [e] seconds into phase [k] selects phase [k] and sets the
    countdown by the policy for that phase at [e]. *)
Lemma countdown_in_phase (s : State) (now : Q) (k : nat) (e : Q) :
  isPlaying s = true ->
  (forall p, In p (getCurrentPhases s) -> 0 <= duration p) ->
  (k < List.length (getCurrentPhases s))%nat ->
  numIs (cycleElapsedAt now s) (accumulatedStart (getCurrentPhases s) k + e) ->
  0 <= e -> e < durationAt (getCurrentPhases s) k ->
  count (animate now s) = k
  /\ countdown (animate now s)
     = countdownPolicy (durationAt (getCurrentPhases s) k) e.
Proof.
  intros Hplay Hpos Hk Hc He0 He1.
  destruct (cycleElapsedAt now s) as [c|] eqn:Ec; simpl in Hc; [|contradiction].
  assert (Hfind : findPhase (getCurrentPhases s) (Num c)
                  = (k, accumulatedStart (getCurrentPhases s) k))
    by (apply findPhase_in_phase with (e := e); assumption).
  split.
  - rewrite (animate_count now s Hplay). unfold newCountAt.
    now rewrite Ec, Hfind.
  - rewrite (animate_countdown now s Hplay).
    unfold newCountAt, phaseStartAt. rewrite Ec, Hfind. cbn [fst snd].
    apply newCountdownOf_policy. simpl. rewrite Hc. ring.
Qed.

(** C6.  On a frame of a playing session with a finite cycle position, let
    [d] be the duration of the phase the frame selects and [e] the
    phase-local elapsed time, the cycle position minus the phase's
    accumulated start.  The countdown the frame stores is [d] itself when
    [d] is not a whole number and [d - e] exceeds the floor of [d], and the
    ceiling of [d - e] otherwise.  When the phases have non-negative
    durations, every phase [k] and every [e] with [0 <= e < d] for its
    duration [d] are met this way by the cycle position [e] seconds after
    the accumulated start of [k].  A 4.5-second phase gives 4.5 at [e = 0]
    and 4 at [e = 0.6]. *)
Theorem countdown_policy (s : State) (now c : Q) :
  isPlaying s = true ->
  numIs (cycleElapsedAt now s) c ->
  let phases := getCurrentPhases s in
  (let d := durationAt phases (count (animate now s)) in
   let e := c - phaseStartAt now s in
   countdown (animate now s)
   = (if fractional d && Qltb (inject_Z (Qfloor d)) (d - e)
      then Num d
      else Num (inject_Z (Qceiling (d - e)))))
  /\ (forall k e,
        (forall p, In p phases -> 0 <= duration p) ->
        (k < List.length phases)%nat ->
        c == accumulatedStart phases k + e ->
        0 <= e -> e < durationAt phases k ->
        let d := durationAt phases k in
        count (animate now s) = k
        /\ countdown (animate now s)
           = (if fractional d && Qltb (inject_Z (Qfloor d)) (d - e)
              then Num d
              else Num (inject_Z (Qceiling (d - e)))))
  /\ newCountdownOf (9 # 2) (Num 0) = Num (9 # 2)
  /\ newCountdownOf (9 # 2) (Num (6 # 10)) = Num 4.
Proof.
  intros Hplay Hnum phases.
  destruct (cycleElapsedAt now s) as [c0|] eqn:Ec; simpl in Hnum;
    [|contradiction].
  split; [|split; [|split; vm_compute; reflexivity]].
  - cbv zeta. rewrite (animate_countdown now s Hplay), Ec.
    rewrite (animate_count now s Hplay).
    apply newCountdownOf_policy. simpl. rewrite Hnum. reflexivity.
  - intros k e Hpos Hk Hc He0 He1 d.
    apply countdown_in_phase; try assumption.
    rewrite Ec. simpl. rewrite Hnum. exact Hc.
Qed.

(** Coherent breathing at 4.5 s, 0.6 s after the start. *)
Lemma countdown_policy_witness :
  count (animate 600 coherentSession) = 0%nat
  /\ countdown (animate 600 coherentSession) = Num 4.
Proof.
  destruct (countdown_policy coherentSession 600 (6 # 10))
    as (_ & H & _).
  - reflexivity.
  - vm_compute. reflexivity.
  - destruct (H 0%nat (6 # 10)) as [H1 H2].
    + intros p [<- | [<- | []]]; discriminate.
    + simpl. lia.
    + reflexivity.
    + discriminate.
    + reflexivity.
    + split; [exact H1 | exact H2].
Defined.

(** ** Reset and pause *)

(** C7.  From every state, [resetToStart] sets the completed rounds, the
    time-limit flag, the round target, the time limit and the elapsed time
    to zero, false or empty, leaves the session idle (not playing, not
    started, not complete, no start time, phase index 0), and keeps the
    exercise type, both phase-duration parameters and the sound and
    countdown toggles. *)
Theorem reset_clears_runtime_keeps_config (s : State) :
  let s' := resetToStart s in
  (completedRounds s' = 0%Z
   /\ timeLimitReached s' = false
   /\ targetRounds s' = 0%Z
   /\ timeLimit s' = ""%string
   /\ totalTime s' = 0%Z)
  /\ (isPlaying s' = false
      /\ hasStarted s' = false
      /\ sessionComplete s' = false
      /\ startTime s' = None
      /\ pulseStartTime s' = None
      /\ count s' = 0%nat
      /\ idle s' = true)
  /\ (exerciseType s' = exerciseType s
      /\ phaseTime s' = phaseTime s
      /\ exhaleDuration s' = exhaleDuration s
      /\ soundEnabled s' = soundEnabled s
      /\ countdownEnabled s' = countdownEnabled s).
Proof.
  cbv zeta. repeat split.
Qed.

(** The first frame of a start operation cannot be a wraparound: the
    phase index it starts from is 0 and every pattern has at least two
    phases. *)
Lemma no_wrap_from_zero (now : Q) (s : State) :
  count s = 0%nat -> wrapsAt now s = false.
Proof.
  intro H. unfold wrapsAt, isWraparound. rewrite H.
  destruct (newCountAt now s =? 0)%nat; [reflexivity|]. cbn [negb andb].
  unfold getCurrentPhases. destruct (exerciseType s); reflexivity.
Qed.

(** The playing branch of [togglePlay] before its frame, in closed form. *)
Lemma togglePlay_begin_eq (tPulse tStart : Q) (s : State) :
  togglePlay_begin tPulse tStart s
  = mkState (isPlaying s) 0 (firstCountdown s) 0
      (soundEnabled s) (countdownEnabled s) (timeLimit s) false false
      (phaseTime s) (exhaleDuration s) (exerciseType s)
      (Some tPulse) true (Some tStart)
      (if ExerciseType_eqb (exerciseType s) fourSevenEight
          && truthy (timeLimit s)
       then orZero (parseInt (timeLimit s)) else 0%Z)
      0.
Proof.
  unfold togglePlay_begin.
  cbn [exerciseType timeLimit set_hasStarted set_totalTime set_countdown
       set_count set_sessionComplete set_timeLimitReached
       set_completedRounds].
  destruct (ExerciseType_eqb _ _ && truthy _); reflexivity.
Qed.

(** What pressing Start does to the targets, and that the session is then
    playing. *)
Lemma togglePlay_start (tPulse tStart now : Q) (s : State) :
  isPlaying s = false ->
  let s' := togglePlay tPulse tStart now s in
  isPlaying s' = true
  /\ timeLimit s' = timeLimit s
  /\ exerciseType s' = exerciseType s
  /\ targetRounds s'
     = (if ExerciseType_eqb (exerciseType s) fourSevenEight
           && truthy (timeLimit s)
        then orZero (parseInt (timeLimit s)) else 0%Z).
Proof.
  intros Hidle s'. subst s'. unfold togglePlay.
  cbn [isPlaying set_isPlaying]. rewrite Hidle. cbn [negb].
  rewrite togglePlay_begin_eq.
  set (b := mkState _ _ _ _ _ _ _ _ _ _ _ _ _ _ _ _ _).
  assert (Hb : isPlaying b = true) by reflexivity.
  assert (Hc : count b = 0%nat) by reflexivity.
  rewrite (animate_isPlaying now b Hb), (no_wrap_from_zero now b Hc).
  rewrite (animate_timeLimit now b Hb), (animate_exerciseType now b Hb),
    (animate_targetRounds now b Hb).
  repeat split.
Qed.

(** C9, as the code has it.  Pressing the play/pause button during a
    session stops it and gives the elapsed time, the phase index, the round
    counter and target, both flags, [hasStarted] and the start time the
    values they have in the initial state; the countdown is set to the
    rounded-up duration of the current pattern's first phase, which is the
    initial 4 only when that duration rounds up to 4.  The typed time limit
    is kept, where [resetToStart] clears it, so the next start uses the
    same limit, and on the 4-7-8 pattern reads it as the round target. *)
Theorem pause_keeps_time_limit (s : State) (tPulse tStart now : Q) :
  isPlaying s = true ->
  let s' := togglePlay tPulse tStart now s in
  (isPlaying s' = false
   /\ totalTime s' = totalTime initialState
   /\ count s' = count initialState
   /\ completedRounds s' = completedRounds initialState
   /\ targetRounds s' = targetRounds initialState
   /\ timeLimitReached s' = timeLimitReached initialState
   /\ sessionComplete s' = sessionComplete initialState
   /\ hasStarted s' = hasStarted initialState
   /\ startTime s' = startTime initialState)
  /\ countdown s' = ceil (Num (durationAt (getCurrentPhases s) 0))
  /\ timeLimit s' = timeLimit s
  /\ timeLimit (resetToStart s) = ""%string
  /\ (forall tPulse' tStart' now',
        let s'' := togglePlay tPulse' tStart' now' s' in
        isPlaying s'' = true
        /\ timeLimit s'' = timeLimit s
        /\ timeLimitSeconds s'' = timeLimitSeconds s
        /\ targetRounds s''
           = (if ExerciseType_eqb (exerciseType s) fourSevenEight
                 && truthy (timeLimit s)
              then orZero (parseInt (timeLimit s)) else 0%Z)).
Proof.
  intros Hplay s'.
  assert (Hs' : s' = togglePlay_pause (set_isPlaying false s)).
  { subst s'. unfold togglePlay. cbn [isPlaying set_isPlaying].
    rewrite Hplay. reflexivity. }
  split; [|split; [|split; [|split]]].
  - rewrite Hs'. repeat split.
  - rewrite Hs'. reflexivity.
  - rewrite Hs'. reflexivity.
  - reflexivity.
  - intros tPulse' tStart' now' s''.
    assert (Hidle : isPlaying s' = false) by (rewrite Hs'; reflexivity).
    destruct (togglePlay_start tPulse' tStart' now' s' Hidle)
      as (H1 & H2 & H3 & H4).
    fold s'' in H1, H2, H3, H4.
    assert (Htl : timeLimit s' = timeLimit s) by (rewrite Hs'; reflexivity).
    assert (Het : exerciseType s' = exerciseType s)
      by (rewrite Hs'; reflexivity).
    rewrite Htl in H2, H4. rewrite Het in H4.
    repeat split; try assumption.
    unfold timeLimitSeconds. now rewrite H2.
Qed.

(** Coherent breathing at 4.5 s with "3" typed as the limit, paused: the
    field still reads "3", where a reset would have emptied it, and the
    countdown is 5. *)
Lemma pause_keeps_time_limit_witness :
  timeLimit (togglePlay 0 0 0 coherentLimitSession)
  = timeLimit coherentLimitSession
  /\ timeLimit coherentLimitSession = "3"%string
  /\ timeLimit (resetToStart coherentLimitSession) = ""%string
  /\ countdown (togglePlay 0 0 0 coherentLimitSession) = Num 5.
Proof.
  destruct (pause_keeps_time_limit coherentLimitSession 0 0 0)
    as (_ & H1 & H2 & H3 & _).
  - reflexivity.
  - split; [exact H2|]. split; [reflexivity|]. split; [exact H3 | exact H1].
Defined.

Lemma coherentSession_reachable : reachable coherentSession.
Proof.
  apply (run_reachable
           [ClickExercise coherent; InputSlider (9 # 2); ClickTogglePlay 0 0 0]
           initialState _ initialState_reachable).
  vm_compute. reflexivity.
Qed.

(** C9, as stated, fails for the countdown: pausing coherent breathing at
    4.5 s leaves the countdown at 5, while its value in the initial state
    is 4. *)
Lemma pause_countdown_is_not_initial :
  reachable coherentSession
  /\ isPlaying coherentSession = true
  /\ countdown (togglePlay 0 0 0 coherentSession) = Num 5
  /\ countdown initialState = Num 4
  /\ strict_neq (countdown (togglePlay 0 0 0 coherentSession))
                (countdown initialState) = true.
Proof.
  split; [exact coherentSession_reachable|].
  repeat split; vm_compute; reflexivity.
Qed.

(** ** The countdown at start *)

Section FirstFrame.

Variable b : State.
Variables tStart now : Q.
Hypothesis playing : isPlaying b = true.
Hypothesis started : startTime b = Some tStart.
Hypothesis nonneg : forall p, In p (getCurrentPhases b) -> 0 <= duration p.

Let d0 : Q := durationAt (getCurrentPhases b) 0.
Let e : Q := (now - tStart) / 1000.

(** The first phase is no longer than the cycle. *)
Lemma first_duration_le_total : d0 <= getTotalCycleTime b.
Proof.
  unfold getTotalCycleTime. rewrite <- accumulatedStart_total.
  pose proof (getCurrentPhases_nonempty b) as Hne.
  assert (Hlen : (1 <= List.length (getCurrentPhases b))%nat)
    by (destruct (getCurrentPhases b); [congruence | simpl; lia]).
  pose proof (accumulatedStart_mono _ nonneg 1 _ Hlen (Nat.le_refl _)) as Hm.
  unfold accumulatedStart in Hm at 1. rewrite startFrom_succ in Hm by lia.
  rewrite startFrom_0 in Hm. subst d0. lra.
Qed.

(** A frame during the first phase of the first cycle sets the countdown
    by the per-frame policy at the elapsed time. *)
Lemma first_phase_countdown :
  0 <= e -> e < d0 ->
  countdown (animate now b) = countdownPolicy d0 e.
Proof.
  intros He0 He1.
  pose proof first_duration_le_total as Hle.
  assert (Hel : totalElapsedAt now b = e).
  { unfold totalElapsedAt, startTimeValue. now rewrite started. }
  destruct (rem_small e (getTotalCycleTime b) He0 ltac:(lra)) as (r & Hr & Hre).
  assert (Hcyc : cycleElapsedAt now b = Num r).
  { unfold cycleElapsedAt. now rewrite Hel. }
  assert (Hlen : (0 < List.length (getCurrentPhases b))%nat).
  { pose proof (getCurrentPhases_nonempty b).
    destruct (getCurrentPhases b); [congruence | simpl; lia]. }
  destruct (countdown_in_phase b now 0 e playing nonneg Hlen) as (_ & H).
  - rewrite Hcyc. simpl. unfold accumulatedStart. rewrite startFrom_0. lra.
  - exact He0.
  - exact He1.
  - exact H.
Qed.

End FirstFrame.

(** C10, as the code has it.  Every start operation assigns the rounded-up
    first phase duration to the countdown and then, before it returns and
    before anything is drawn, runs its first frame, which replaces that
    value by the per-frame policy's.  When the first frame reads the clock
    [e] seconds after the start time, with [e] inside the first phase, the
    countdown after the start operation is the policy's value for the first
    phase at [e].  For coherent breathing at 4.5 s and a first frame less
    than half a second after the start time this is the exact 4.5; the
    rounded-up 5 is only the intermediate value. *)
Theorem start_countdown_follows_policy
  (s : State) (minutes rounds : Z) (tPulse tStart now : Q) :
  isPlaying s = false ->
  (forall p, In p (getCurrentPhases s) -> 0 <= duration p) ->
  tStart <= now ->
  (now - tStart) / 1000 < durationAt (getCurrentPhases s) 0 ->
  let d0 := durationAt (getCurrentPhases s) 0 in
  let e := (now - tStart) / 1000 in
  (countdown (togglePlay_begin tPulse tStart (set_isPlaying true s))
   = ceil (Num d0)
   /\ countdown (startWithPreset_begin minutes tPulse tStart s) = ceil (Num d0)
   /\ countdown (startWithRounds_begin rounds tPulse tStart s) = ceil (Num d0))
  /\ (countdown (togglePlay tPulse tStart now s) = countdownPolicy d0 e
      /\ countdown (startWithPreset minutes tPulse tStart now s)
         = countdownPolicy d0 e
      /\ countdown (startWithRounds rounds tPulse tStart now s)
         = countdownPolicy d0 e)
  /\ (exerciseType s = coherent -> phaseTime s = 9 # 2 ->
      now < tStart + 500 ->
      countdown (togglePlay tPulse tStart now s) = Num (9 # 2)
      /\ countdown (startWithPreset minutes tPulse tStart now s) = Num (9 # 2)
      /\ countdown (startWithRounds rounds tPulse tStart now s) = Num (9 # 2)).
Proof.
  intros Hidle Hpos Hnow He1 d0 e.
  assert (He0 : 0 <= e)
    by (apply Qle_shift_div_l; [reflexivity | lra]).
  assert (Hpolicy :
    countdown (togglePlay tPulse tStart now s) = countdownPolicy d0 e
    /\ countdown (startWithPreset minutes tPulse tStart now s)
       = countdownPolicy d0 e
    /\ countdown (startWithRounds rounds tPulse tStart now s)
       = countdownPolicy d0 e).
  { repeat split.
    - unfold togglePlay. cbn [isPlaying set_isPlaying]. rewrite Hidle.
      cbn [negb]. rewrite togglePlay_begin_eq.
      match goal with
      | |- countdown (animate now ?b) = _ =>
          exact (first_phase_countdown b tStart now eq_refl eq_refl
                   Hpos He0 He1)
      end.
    - exact (first_phase_countdown
               (startWithPreset_begin minutes tPulse tStart s) tStart now
               eq_refl eq_refl Hpos He0 He1).
    - exact (first_phase_countdown
               (startWithRounds_begin rounds tPulse tStart s) tStart now
               eq_refl eq_refl Hpos He0 He1). }
  split; [|split; [exact Hpolicy|]].
  - rewrite togglePlay_begin_eq. repeat split.
  - intros Hty Hpt Hhalf.
    assert (Hd0 : d0 = 9 # 2).
    { subst d0. unfold getCurrentPhases. rewrite Hty, Hpt. reflexivity. }
    assert (Hval : countdownPolicy d0 e = Num (9 # 2)).
    { rewrite Hd0. unfold countdownPolicy.
      change (fractional (9 # 2)) with true.
      change (inject_Z (Qfloor (9 # 2))) with 4. cbn [andb].
      assert (He : e < 1 # 2).
      { subst e. apply Qlt_shift_div_r; [reflexivity | lra]. }
      assert (Hlt : Qltb 4 ((9 # 2) - e) = true) by (apply Qltb_iff; lra).
      now rewrite Hlt. }
    rewrite <- Hval. exact Hpolicy.
Qed.

(** Coherent breathing at 4.5 s, started with every clock reading at 0. *)
Lemma start_countdown_follows_policy_witness :
  countdown (togglePlay_begin 0 0 (set_isPlaying true coherentIdle)) = Num 5
  /\ countdown (togglePlay 0 0 0 coherentIdle) = Num (9 # 2).
Proof.
  destruct (start_countdown_follows_policy coherentIdle 2 4 0 0 0)
    as (H1 & _ & H3).
  - reflexivity.
  - intros p [<- | [<- | []]]; discriminate.
  - discriminate.
  - reflexivity.
  - split.
    + exact (proj1 H1).
    + apply H3; reflexivity.
Defined.

(** C10, as stated, fails: after [togglePlay] has started coherent
    breathing at 4.5 s, the countdown is 4.5 and not the rounded-up 5, and
    likewise after a minutes preset. *)
Lemma start_countdown_is_not_rounded_up :
  reachable coherentIdle
  /\ isPlaying coherentIdle = false
  /\ firstCountdown coherentIdle = Num 5
  /\ countdown (togglePlay 0 0 0 coherentIdle) = Num (9 # 2)
  /\ strict_neq (countdown (togglePlay 0 0 0 coherentIdle))
                (firstCountdown coherentIdle) = true
  /\ strict_neq (countdown (startWithPreset 2 0 0 0 coherentIdle))
                (firstCountdown coherentIdle) = true.
Proof.
  split; [exact coherentIdle_reachable|].
  repeat split; vm_compute; reflexivity.
Qed.

(** ** Time limit and round target *)

Section Targets.

Lemma targetsInv_start (saved : option Settings) :
  targetsInv (loadSettings saved initialState).
Proof.
  assert (H : targetRounds (loadSettings saved initialState) = 0%Z).
  { destruct saved as [[[a|] [b|] [c|] [d|] [e|]]|]; reflexivity. }
  split; [intros _ _; exact H | intro Hne; congruence].
Qed.

Lemma ExerciseType_eqb_eq (a b : ExerciseType) :
  ExerciseType_eqb a b = true <-> a = b.
Proof. destruct a, b; simpl; split; congruence. Qed.

Lemma startWithRounds_targets (rounds : Z) (tPulse tStart now : Q)
  (s : State) :
  let s' := startWithRounds rounds tPulse tStart now s in
  isPlaying s' = true /\ timeLimit s' = ""%string
  /\ targetRounds s' = rounds /\ exerciseType s' = exerciseType s.
Proof.
  cbv zeta. unfold startWithRounds.
  set (b := startWithRounds_begin rounds tPulse tStart s).
  assert (Hb : isPlaying b = true) by reflexivity.
  assert (Hc : count b = 0%nat) by reflexivity.
  rewrite (animate_isPlaying now b Hb), (no_wrap_from_zero now b Hc).
  rewrite (animate_timeLimit now b Hb), (animate_exerciseType now b Hb),
    (animate_targetRounds now b Hb).
  repeat split.
Qed.

Lemma startWithPreset_targets (minutes : Z) (tPulse tStart now : Q)
  (s : State) :
  let s' := startWithPreset minutes tPulse tStart now s in
  isPlaying s' = true /\ timeLimit s' = toString minutes
  /\ targetRounds s' = 0%Z /\ exerciseType s' = exerciseType s.
Proof.
  cbv zeta. unfold startWithPreset.
  set (b := startWithPreset_begin minutes tPulse tStart s).
  assert (Hb : isPlaying b = true) by reflexivity.
  assert (Hc : count b = 0%nat) by reflexivity.
  rewrite (animate_isPlaying now b Hb), (no_wrap_from_zero now b Hc).
  rewrite (animate_timeLimit now b Hb), (animate_exerciseType now b Hb),
    (animate_targetRounds now b Hb).
  repeat split.
Qed.

(** An operation that runs while idle and leaves the round target alone
    keeps the invariant. *)
Lemma targetsInv_idle_same (s s' : State) :
  idle s = true -> targetsInv s -> targetRounds s' = targetRounds s ->
  targetsInv s'.
Proof.
  intros Hen [Hidle _] Ht. unfold idle in Hen.
  apply andb_true_iff in Hen as [Hp Hc]. apply negb_true_iff in Hp, Hc.
  specialize (Hidle Hp Hc). rewrite Hidle in Ht.
  split; [intros _ _; exact Ht | intro H; congruence].
Qed.

Lemma targetsInv_event (s : State) (e : Event) :
  targetsInv s -> enabled e s = true -> targetsInv (handle e s).
Proof.
  intros [Hidle Hset] Hen. destruct e; cbn [handle enabled] in *.
  - (* play / pause *)
    destruct (isPlaying s) eqn:Hp.
    + unfold togglePlay. cbn [isPlaying set_isPlaying]. rewrite Hp.
      split; [reflexivity | intro H; exfalso; apply H; reflexivity].
    + destruct (togglePlay_start tPulse tStart now s Hp)
        as (H1 & H2 & H3 & H4).
      split; [intro H; congruence|].
      rewrite H2, H3, H4. intro Hne.
      destruct (ExerciseType_eqb (exerciseType s) fourSevenEight) eqn:Et;
        cbn [andb] in *; [|congruence].
      destruct (truthy (timeLimit s)); [|congruence].
      apply ExerciseType_eqb_eq in Et. split; [exact Et | now right].
  - (* reset *)
    split; [reflexivity | intro H; exfalso; apply H; reflexivity].
  - apply (targetsInv_idle_same s); [exact Hen | now split | reflexivity].
  - apply (targetsInv_idle_same s); [exact Hen | now split | reflexivity].
  - apply (targetsInv_idle_same s); [exact Hen | now split | reflexivity].
  - apply (targetsInv_idle_same s); [exact Hen | now split |].
    destruct type; reflexivity.
  - apply andb_true_iff in Hen as [Hen _].
    apply (targetsInv_idle_same s); [exact Hen | now split |].
    unfold phaseTimeSliderInput; destruct (exerciseType s); reflexivity.
  - (* rounds preset *)
    apply andb_true_iff in Hen as [Hen _].
    apply andb_true_iff in Hen as [_ Het].
    apply ExerciseType_eqb_eq in Het.
    destruct (startWithRounds_targets rounds tPulse tStart now s)
      as (H1 & H2 & H3 & H4).
    split; [intro H; congruence|].
    intros _. split; [congruence | now left].
  - (* minutes preset *)
    destruct (startWithPreset_targets minutes tPulse tStart now s)
      as (H1 & H2 & H3 & H4).
    split; [intro H; congruence | intro H; congruence].
  - (* animation frame *)
    destruct (isPlaying s) eqn:Hp;
      [|rewrite animate_idle by exact Hp;
        split; [intros _ Hc; now apply Hidle | exact Hset]].
    unfold targetsInv.
    rewrite animate_keeps_targetRounds, animate_keeps_exerciseType,
      animate_keeps_timeLimit.
    split; [|exact Hset].
    rewrite (animate_isPlaying now s Hp), (animate_sessionComplete now s Hp).
    intros Hfin Hcomp. apply negb_false_iff in Hfin.
    rewrite Hfin, orb_true_r in Hcomp. discriminate.
Qed.

Lemma reachable_targetsInv (s : State) : reachable s -> targetsInv s.
Proof.
  induction 1 as [saved | s e _ IH Hen].
  - apply targetsInv_start.
  - now apply targetsInv_event.
Qed.

End Targets.

(** C2, as the code has it.  In every state the page can reach, and so
    after every start operation and throughout a playing session: a round
    target is in effect only on the 4-7-8 pattern; when it is, either the
    time-limit field is empty (a rounds preset) or the field is kept and the
    target is the integer read from it (the play button); on every other
    pattern the target is 0; and a non-empty field goes with target 0 or,
    on the 4-7-8 pattern, with the target read from it. *)
Theorem target_is_preset_or_read_from_field (s : State) :
  reachable s ->
  ((0 < targetRounds s)%Z ->
     exerciseType s = fourSevenEight
     /\ (timeLimit s = ""%string
         \/ targetRounds s = orZero (parseInt (timeLimit s))))
  /\ (exerciseType s <> fourSevenEight -> targetRounds s = 0%Z)
  /\ (timeLimit s <> ""%string ->
      targetRounds s = 0%Z
      \/ (exerciseType s = fourSevenEight
          /\ targetRounds s = orZero (parseInt (timeLimit s)))).
Proof.
  intro Hr. destruct (reachable_targetsInv s Hr) as [_ Hset].
  repeat split.
  - apply Hset. lia.
  - apply Hset. lia.
  - intro Hne. destruct (Z.eq_dec (targetRounds s) 0) as [H0 | H0];
      [exact H0|]. destruct (Hset H0) as [Het _]. congruence.
  - intro Htl. destruct (Z.eq_dec (targetRounds s) 0) as [H0 | H0];
      [now left|]. right. destruct (Hset H0) as [Het [He | Hp]];
      [congruence | now split].
Qed.

Lemma typedFour_run : run (roundsEvents "4") initialState = Some typedFour.
Proof. vm_compute. reflexivity. Qed.

(** The 4-7-8 pattern started with "4" typed into the field. *)
Lemma target_is_preset_or_read_from_field_witness :
  exerciseType typedFour = fourSevenEight
  /\ (timeLimit typedFour = ""%string
      \/ targetRounds typedFour = orZero (parseInt (timeLimit typedFour))).
Proof.
  apply (proj1 (target_is_preset_or_read_from_field typedFour
                  (run_reachable _ _ _ initialState_reachable typedFour_run))).
  reflexivity.
Defined.

(** C2, as stated, fails: on the 4-7-8 pattern with "4" typed into the
    field, the play button starts a session in which the round target is 4
    and the time limit is still the non-empty "4". *)
Lemma typed_rounds_keep_time_limit :
  run (roundsEvents "4") initialState = Some typedFour
  /\ reachable typedFour
  /\ isPlaying typedFour = true
  /\ (0 < targetRounds typedFour)%Z
  /\ timeLimit typedFour = "4"%string
  /\ timeLimit typedFour <> ""%string.
Proof.
  split; [exact typedFour_run|].
  split; [exact (run_reachable _ _ _ initialState_reachable typedFour_run)|].
  repeat split. discriminate.
Qed.

(** ** The flags of a session *)

Section Flags.

Lemma animate_hasStarted (now : Q) (s : State) :
  isPlaying s = true ->
  hasStarted (animate now s)
  = hasStarted s
    && negb (wrapsAt now s
             && (roundsDoneAt s || timeLimitReached (animate now s))).
Proof. intro H. now rewrite animate_playing. Qed.

(** The first frame of a start operation leaves the session playing and
    not complete. *)
Lemma first_frame_plays (now : Q) (b : State) :
  isPlaying b = true -> count b = 0%nat -> sessionComplete b = false ->
  isPlaying (animate now b) = true /\ sessionComplete (animate now b) = false.
Proof.
  intros Hp Hc Hs.
  rewrite (animate_isPlaying now b Hp), (animate_sessionComplete now b Hp).
  now rewrite (no_wrap_from_zero now b Hc), Hs.
Qed.

Lemma flagsInv_playing (s : State) :
  isPlaying s = true -> sessionComplete s = false -> flagsInv s.
Proof. intros Hp Hc. split; intros; congruence. Qed.

Lemma flagsInv_same (s s' : State) :
  flagsInv s ->
  isPlaying s' = isPlaying s -> sessionComplete s' = sessionComplete s ->
  timeLimitReached s' = timeLimitReached s -> hasStarted s' = hasStarted s ->
  flagsInv s'.
Proof.
  intros [H1 H2] Hp Hc Hr Hs. unfold flagsInv.
  rewrite Hp, Hc, Hr, Hs. now split.
Qed.

Lemma flagsInv_start (saved : option Settings) :
  flagsInv (loadSettings saved initialState).
Proof.
  apply (flagsInv_same initialState);
    try (destruct saved as [[[a|] [b|] [c|] [d|] [e|]]|]; reflexivity).
  split; [reflexivity | discriminate].
Qed.

Lemma flagsInv_event (s : State) (e : Event) :
  flagsInv s -> enabled e s = true -> flagsInv (handle e s).
Proof.
  intros Hinv Hen. destruct e; cbn [handle enabled] in *.
  - destruct (isPlaying s) eqn:Hp.
    + unfold togglePlay. cbn [isPlaying set_isPlaying]. rewrite Hp.
      split; [reflexivity | discriminate].
    + unfold togglePlay. cbn [isPlaying set_isPlaying]. rewrite Hp.
      cbn [negb]. rewrite togglePlay_begin_eq.
      apply flagsInv_playing; now apply first_frame_plays.
  - split; [reflexivity | discriminate].
  - now apply (flagsInv_same s).
  - now apply (flagsInv_same s).
  - now apply (flagsInv_same s).
  - apply (flagsInv_same s); [assumption | destruct type; reflexivity ..].
  - apply (flagsInv_same s); [assumption | ..];
      unfold phaseTimeSliderInput; destruct (exerciseType s); reflexivity.
  - apply flagsInv_playing; now apply first_frame_plays.
  - apply flagsInv_playing; now apply first_frame_plays.
  - destruct (isPlaying s) eqn:Hp;
      [|now rewrite animate_idle by exact Hp].
    destruct Hinv as [_ H2].
    assert (Hc : sessionComplete s = false).
    { destruct (sessionComplete s); [|reflexivity].
      destruct (H2 eq_refl). congruence. }
    unfold flagsInv.
    rewrite (animate_hasStarted now s Hp), (animate_isPlaying now s Hp),
      (animate_sessionComplete now s Hp), Hc. cbn [orb].
    destruct (wrapsAt now s && _); cbn [negb].
    + split; [discriminate | intros _; split; [reflexivity|]].
      now rewrite andb_false_r.
    + split; discriminate.
Qed.

Lemma reachable_flagsInv (s : State) : reachable s -> flagsInv s.
Proof.
  induction 1 as [saved | s e _ IH Hen].
  - apply flagsInv_start.
  - now apply flagsInv_event.
Qed.

(** A complete session is neither playing nor started. *)
Lemma complete_is_stopped (s : State) :
  reachable s -> sessionComplete s = true ->
  isPlaying s = false /\ hasStarted s = false.
Proof. intros Hr. apply (reachable_flagsInv s Hr). Qed.

(** Once set, the time-limit flag is cleared only by the reset button or by
    pausing. *)
Lemma timeLimitReached_persists (s : State) (e : Event) :
  reachable s -> enabled e s = true -> timeLimitReached s = true ->
  timeLimitReached (handle e s) = true
  \/ e = ClickReset
  \/ (isPlaying s = true
      /\ exists tPulse tStart now, e = ClickTogglePlay tPulse tStart now).
Proof.
  intros Hr Hen Hflag.
  destruct (reachable_flagsInv s Hr) as [Hidle _].
  assert (Hbusy : idle s = false).
  { unfold idle. destruct (isPlaying s) eqn:Hp; [reflexivity|].
    destruct (sessionComplete s) eqn:Hc; [reflexivity|].
    rewrite (Hidle eq_refl eq_refl) in Hflag. discriminate. }
  destruct e; cbn [handle enabled] in *;
    try (rewrite Hbusy in Hen; discriminate).
  - destruct (isPlaying s) eqn:Hp.
    + right. right. split; [reflexivity|]. now exists tPulse, tStart, now.
    + unfold idle in Hbusy. rewrite Hp in Hbusy. cbn [negb andb] in Hbusy.
      rewrite Hbusy in Hen. discriminate.
  - right. now left.
  - left. destruct (isPlaying s) eqn:Hp.
    + rewrite (animate_timeLimitReached now s Hp), Hflag. reflexivity.
    + now rewrite animate_idle.
Qed.

End Flags.

(** C3: the code sets the time-limit flag while a round target is in
    effect.  On the 4-7-8 pattern with "1" typed into the field and the play
    button pressed at 0 ms, the round target is 1; a frame that arrives at
    60000 ms, before any wraparound has been seen, reads the field as one
    minute and sets [timeLimitReached] although the session is round-based
    and still playing. *)
Theorem time_limit_flag_set_under_round_target :
  run (roundsEvents "1" ++ [Frame 60000]) initialState
  = Some (animate 60000 typedOne)
  /\ reachable (animate 60000 typedOne)
  /\ exerciseType typedOne = fourSevenEight
  /\ targetRounds typedOne = 1%Z
  /\ timeLimitReached typedOne = false
  /\ isPlaying (animate 60000 typedOne) = true
  /\ targetRounds (animate 60000 typedOne) = 1%Z
  /\ completedRounds (animate 60000 typedOne) = 0%Z
  /\ timeLimitReached (animate 60000 typedOne) = true.
Proof.
  assert (Hrun : run (roundsEvents "1" ++ [Frame 60000]) initialState
                 = Some (animate 60000 typedOne))
    by (vm_compute; reflexivity).
  split; [exact Hrun|].
  split; [exact (run_reachable _ _ _ initialState_reachable Hrun)|].
  repeat split; vm_compute; reflexivity.
Qed.

(** C5: the code ends a round-target session before the target is met.  On
    the 4-7-8 pattern with "2" typed into the field the round target is 2.
    With frames at 120 s, 125 s and 133.5 s after the start (none in
    between), the first sets the time-limit flag, the second is in the last
    phase, and the third is the first wraparound the code sees: it counts
    round 1 and completes the session through the time-limit block, with one
    completed round against a target of two. *)
Theorem round_session_ends_before_target :
  run (roundsEvents "2" ++ [Frame 120000; Frame 125000; Frame 133500])
      initialState
  = Some (frames [120000; 125000; 133500] typedTwo)
  /\ reachable (frames [120000; 125000; 133500] typedTwo)
  /\ exerciseType typedTwo = fourSevenEight
  /\ targetRounds typedTwo = 2%Z
  /\ timeLimitReached (frames [120000] typedTwo) = true
  /\ count (frames [120000; 125000] typedTwo) = 2%nat
  /\ sessionComplete (frames [120000; 125000] typedTwo) = false
  /\ wrapsAt 133500 (frames [120000; 125000] typedTwo) = true
  /\ completedRounds (frames [120000; 125000; 133500] typedTwo) = 1%Z
  /\ targetRounds (frames [120000; 125000; 133500] typedTwo) = 2%Z
  /\ sessionComplete (frames [120000; 125000; 133500] typedTwo) = true
  /\ isPlaying (frames [120000; 125000; 133500] typedTwo) = false.
Proof.
  assert (Hrun :
    run (roundsEvents "2" ++ [Frame 120000; Frame 125000; Frame 133500])
        initialState
    = Some (frames [120000; 125000; 133500] typedTwo))
    by (vm_compute; reflexivity).
  split; [exact Hrun|].
  split; [exact (run_reachable _ _ _ initialState_reachable Hrun)|].
  repeat split; vm_compute; reflexivity.
Qed.

(** On a session whose time-limit field is empty, as after a rounds
    preset, a frame counts a round exactly when it wraps around, and ends
    the session exactly when that round meets the target. *)
Lemma rounds_frame_without_limit (now : Q) (s : State) :
  isPlaying s = true -> timeLimit s = ""%string ->
  timeLimitReached s = false ->
  completedRounds (animate now s)
  = (completedRounds s + if wrapsAt now s then 1 else 0)%Z
  /\ timeLimitReached (animate now s) = false
  /\ sessionComplete (animate now s)
     = sessionComplete s || (wrapsAt now s && roundsDoneAt s)
  /\ isPlaying (animate now s) = negb (wrapsAt now s && roundsDoneAt s).
Proof.
  intros Hp Htl Hr.
  assert (Hflag : timeLimitReached (animate now s) = false).
  { rewrite (animate_timeLimitReached now s Hp), Hr, Htl. reflexivity. }
  rewrite (animate_completedRounds now s Hp),
    (animate_sessionComplete now s Hp), (animate_isPlaying now s Hp), Hflag.
  rewrite orb_false_r. repeat split.
Qed.

(** ** Sessions with a time limit *)

Section TimeLimit.

Lemma frames_cons (t : Q) (ticks : list Q) (s : State) :
  frames (t :: ticks) s = frames ticks (animate t s).
Proof. reflexivity. Qed.

Lemma frames_idle (ticks : list Q) (s : State) :
  isPlaying s = false -> frames ticks s = s.
Proof.
  intro H. induction ticks as [|t ticks IH]; [reflexivity|].
  now rewrite frames_cons, animate_idle.
Qed.

Lemma truthy_nonempty (x : string) : x <> ""%string -> truthy x = true.
Proof. destruct x; [congruence | reflexivity]. Qed.

Lemma roundsDoneAt_no_target (s : State) :
  targetRounds s = 0%Z -> roundsDoneAt s = false.
Proof.
  intro H. unfold roundsDoneAt. rewrite H. cbn [Z.ltb Z.compare].
  now rewrite andb_false_r.
Qed.

Lemma animate_timeLimitMode (t : Q) (s : State) :
  timeLimitMode s -> timeLimitMode (animate t s).
Proof.
  unfold timeLimitMode.
  now rewrite animate_keeps_timeLimit, animate_keeps_targetRounds.
Qed.

Lemma existsb_limit_animate (t : Q) (s : State) (ticks : list Q) :
  existsb (limitReachedAt (animate t s)) ticks
  = existsb (limitReachedAt s) ticks.
Proof.
  induction ticks as [|u ticks IH]; [reflexivity|].
  simpl. now rewrite IH, animate_limitReachedAt.
Qed.

(** One frame of a playing session in time-limit mode. *)
Lemma animate_in_limit_mode (t : Q) (s : State) :
  isPlaying s = true -> timeLimitMode s ->
  timeLimitReached (animate t s) = reachedBy s [t]
  /\ sessionComplete (animate t s)
     = sessionComplete s || (wrapsAt t s && reachedBy s [t])
  /\ isPlaying (animate t s) = negb (wrapsAt t s && reachedBy s [t]).
Proof.
  intros Hp [Htl Htg].
  assert (Hflag : timeLimitReached (animate t s) = reachedBy s [t]).
  { rewrite (animate_timeLimitReached t s Hp), (truthy_nonempty _ Htl).
    unfold reachedBy. simpl. now rewrite orb_false_r. }
  rewrite (animate_sessionComplete t s Hp), (animate_isPlaying t s Hp).
  rewrite (roundsDoneAt_no_target s Htg), Hflag. repeat split.
Qed.

Lemma reachedBy_cons (t : Q) (s : State) (ticks : list Q) :
  isPlaying s = true -> timeLimitMode s ->
  reachedBy (animate t s) ticks = reachedBy s (t :: ticks).
Proof.
  intros Hp Hm. unfold reachedBy at 1.
  rewrite (proj1 (animate_in_limit_mode t s Hp Hm)), existsb_limit_animate.
  unfold reachedBy. simpl. now rewrite orb_false_r, orb_assoc.
Qed.

(** The flag after a run of frames. *)
Lemma frames_timeLimitReached (ticks : list Q) :
  forall s, timeLimitMode s ->
    isPlaying s = true \/ timeLimitReached s = true ->
    timeLimitReached (frames ticks s) = reachedBy s ticks.
Proof.
  induction ticks as [|t ticks IH]; intros s Hm Hor.
  - unfold reachedBy. simpl. now rewrite orb_false_r.
  - destruct (isPlaying s) eqn:Hp.
    + rewrite frames_cons.
      destruct (animate_in_limit_mode t s Hp Hm) as (Hr & _ & Hp').
      rewrite IH.
      * now apply reachedBy_cons.
      * now apply animate_timeLimitMode.
      * rewrite Hp', Hr.
        destruct (wrapsAt t s), (reachedBy s [t]); auto.
    + destruct Hor as [Hor | Hor]; [discriminate|].
      rewrite frames_idle by exact Hp. unfold reachedBy. now rewrite Hor.
Qed.

(** When a run of frames completes the session. *)
Lemma frames_sessionComplete (ticks : list Q) :
  forall s, isPlaying s = true -> sessionComplete s = false ->
    timeLimitMode s ->
    (sessionComplete (frames ticks s) = true <->
     exists pre t post,
       ticks = pre ++ t :: post
       /\ isPlaying (frames pre s) = true
       /\ wrapsAt t (frames pre s) = true
       /\ reachedBy s (pre ++ [t]) = true)
    /\ isPlaying (frames ticks s) = negb (sessionComplete (frames ticks s)).
Proof.
  induction ticks as [|t ticks IH]; intros s Hp Hc Hm.
  - split; [split|].
    + simpl. congruence.
    + intros (pre & u & post & Heq & _). destruct pre; discriminate.
    + simpl. now rewrite Hp, Hc.
  - rewrite frames_cons.
    destruct (animate_in_limit_mode t s Hp Hm) as (Hr & Hc' & Hp').
    rewrite Hc in Hc'. cbn [orb] in Hc'.
    destruct (wrapsAt t s && reachedBy s [t]) eqn:Hfin.
    + cbn [negb] in Hp'. rewrite (frames_idle ticks _ Hp').
      split; [split|].
      * intros _. exists [], t, ticks.
        apply andb_true_iff in Hfin as [Hw Hrb]. now repeat split.
      * intros _. exact Hc'.
      * now rewrite Hp', Hc'.
    + cbn [negb] in Hp'.
      destruct (IH (animate t s) Hp' Hc' (animate_timeLimitMode t s Hm))
        as [Hiff Hplay].
      split; [split|exact Hplay].
      * intro H. apply Hiff in H.
        destruct H as (pre & u & post & Heq & H1 & H2 & H3).
        exists (t :: pre), u, post. rewrite Heq.
        repeat split; try assumption.
        change ((t :: pre) ++ [u]) with (t :: (pre ++ [u])).
        rewrite <- (reachedBy_cons t s _ Hp Hm). exact H3.
      * intros (pre & u & post & Heq & H1 & H2 & H3).
        destruct pre as [|t0 pre].
        -- simpl in Heq. inversion Heq; subst u post.
           simpl in H1, H2, H3. rewrite H2, H3 in Hfin. discriminate.
        -- simpl in Heq. inversion Heq; subst t0 ticks.
           apply Hiff. exists pre, u, post.
           repeat split; try assumption.
           change ((t :: pre) ++ [u]) with (t :: (pre ++ [u])) in H3.
           rewrite (reachedBy_cons t s _ Hp Hm). exact H3.
Qed.

End TimeLimit.

(** Every pattern of the catalog has at least two phases. *)
Lemma two_phases_at_least (s : State) :
  (2 <= List.length (getCurrentPhases s))%nat.
Proof.
  unfold getCurrentPhases. destruct (exerciseType s); simpl; lia.
Qed.

(** The test the completion blocks of [animate] make is the transition of
    the phase index from the last phase to phase 0. *)
Lemma wrapsAt_lastToFirst (t : Q) (s : State) :
  isPlaying s = true -> (wrapsAt t s = true <-> lastToFirst s t).
Proof.
  intro Hp. unfold lastToFirst. rewrite (animate_count t s Hp).
  unfold wrapsAt, isWraparound.
  pose proof (two_phases_at_least s) as Hlen.
  rewrite !andb_true_iff, negb_true_iff, Nat.eqb_neq, Z.eqb_eq, Nat.eqb_eq.
  split.
  - intros (_ & Hlast & Hzero). split; [lia | exact Hzero].
  - intros [Hlast Hzero]. split; [lia|]. split; [lia | exact Hzero].
Qed.

(** C4.  Take a playing, not yet complete session in time-limit mode and
    any run of frames.  The time-limit flag is set by the first frame whose
    floored elapsed seconds are at least the limit in seconds (it is true
    after the run exactly when it was set before or some frame of the run
    met the limit).  The session is complete after the run exactly when some
    frame of the run, arriving while the session was still playing, took
    the phase index from the last phase of the pattern to phase 0 with the
    flag set by then (by an earlier frame or by that very frame); a frame
    that is not such a transition, whether or not it sets the flag, leaves
    the session playing.  The session plays for as long as it is not
    complete. *)
Theorem time_limit_ends_at_wraparound (s0 : State) (ticks : list Q) :
  isPlaying s0 = true -> sessionComplete s0 = false ->
  timeLimit s0 <> ""%string -> targetRounds s0 = 0%Z ->
  timeLimitReached (frames ticks s0)
  = timeLimitReached s0 || existsb (limitReachedAt s0) ticks
  /\ (sessionComplete (frames ticks s0) = true <->
      exists pre t post,
        ticks = pre ++ t :: post
        /\ isPlaying (frames pre s0) = true
        /\ lastToFirst (frames pre s0) t
        /\ reachedBy s0 (pre ++ [t]) = true)
  /\ isPlaying (frames ticks s0) = negb (sessionComplete (frames ticks s0))
  /\ (forall t, ~ lastToFirst s0 t ->
        isPlaying (animate t s0) = true
        /\ sessionComplete (animate t s0) = false).
Proof.
  intros Hp Hc Htl Htg.
  assert (Hm : timeLimitMode s0) by (split; assumption).
  destruct (frames_sessionComplete ticks s0 Hp Hc Hm) as [Hiff Hplay].
  split; [|split; [|split]].
  - apply (frames_timeLimitReached ticks s0 Hm). now left.
  - rewrite Hiff. split; intros (pre & t & post & Heq & H1 & H2 & H3);
      exists pre, t, post; repeat split; try assumption;
      now apply (wrapsAt_lastToFirst t (frames pre s0) H1).
  - exact Hplay.
  - intros t Hw.
    assert (Hw' : wrapsAt t s0 = false).
    { destruct (wrapsAt t s0) eqn:E; [|reflexivity].
      exfalso. apply Hw. now apply (wrapsAt_lastToFirst t s0 Hp). }
    destruct (animate_in_limit_mode t s0 Hp Hm) as (_ & Hc' & Hp').
    rewrite Hw' in Hc', Hp'. rewrite Hc in Hc'. now split.
Qed.

(** Box breathing at 4 s with a one-minute limit and a frame every second:
    the frame at 60 s sets the flag and is no transition to phase 0, and
    the frame at 64 s, which takes the index from phase 3 to phase 0,
    completes the session. *)
Lemma time_limit_ends_at_wraparound_witness :
  timeLimitReached (frames (everySecond 60) boxMinuteSession) = true
  /\ sessionComplete (frames (everySecond 64) boxMinuteSession) = true.
Proof.
  split.
  - rewrite (proj1 (time_limit_ends_at_wraparound boxMinuteSession
                      (everySecond 60) eq_refl eq_refl
                      ltac:(discriminate) eq_refl)).
    vm_compute. reflexivity.
  - apply (proj1 (proj2 (time_limit_ends_at_wraparound boxMinuteSession
                           (everySecond 64) eq_refl eq_refl
                           ltac:(discriminate) eq_refl))).
    exists (everySecond 63), 64000, [].
    split; [vm_compute; reflexivity|].
    split; [vm_compute; reflexivity|].
    split; [split; vm_compute; reflexivity|].
    vm_compute. reflexivity.
Defined.

(** The specification's example: a 16 s cycle with a limit of one minute
    and a frame every second.  The flag is clear at 59 s and set at 60 s,
    where the session goes on playing; the session is not complete at 63 s
    and is complete, and no longer playing, at 64 s. *)
Lemma box_minute_session_ends_at_64 :
  timeLimitReached (frames (everySecond 59) boxMinuteSession) = false
  /\ timeLimitReached (frames (everySecond 60) boxMinuteSession) = true
  /\ isPlaying (frames (everySecond 60) boxMinuteSession) = true
  /\ sessionComplete (frames (everySecond 63) boxMinuteSession) = false
  /\ sessionComplete (frames (everySecond 64) boxMinuteSession) = true
  /\ isPlaying (frames (everySecond 64) boxMinuteSession) = false
  /\ totalTime (frames (everySecond 64) boxMinuteSession) = 64%Z.
Proof.
  repeat split; vm_compute; reflexivity.
Qed.

(** ** Decimal text *)

Section DecimalText.

Lemma isDigit_digitValue (a : ascii) :
  isDigit a = true ->
  exists d, digitValue a = Some d /\ (0 <= d <= 9)%Z.
Proof.
  unfold isDigit, digitValue. intro H.
  apply andb_true_iff in H as [H1 H2].
  apply Nat.leb_le in H1, H2.
  assert (E : ((48 <=? Z.of_nat (nat_of_ascii a))
               && (Z.of_nat (nat_of_ascii a) <=? 57))%Z = true).
  { apply andb_true_iff. split; apply Z.leb_le; lia. }
  rewrite E. eexists. split; [reflexivity | lia].
Qed.

(** A digit is neither white space, nor a sign, nor the letter of a
    radix prefix. *)
Lemma isDigit_plain (a : ascii) :
  isDigit a = true ->
  isWhite a = false /\ a <> "-"%char /\ a <> "+"%char
  /\ a <> "x"%char /\ a <> "X"%char.
Proof.
  destruct a as [[] [] [] [] [] [] [] []]; intro H;
    try discriminate H; repeat split; discriminate.
Qed.

(** On a digit string the conversion starts the same from no value and
    from zero. *)
Lemma digitsPrefix_None (radix : Z) (a : ascii) (r : string) :
  digitsPrefix radix (String a r) None
  = match digitValue a with
    | Some d => if (d <? radix)%Z
                then digitsPrefix radix r (Some (radix * 0 + d)%Z)
                else None
    | None => None
    end.
Proof. reflexivity. Qed.

(** [parseInt] of a non-empty digit string is the conversion of all of
    it in radix 10. *)
Lemma parseInt_digits (a : ascii) (r : string) :
  isDigit a = true -> digitsOnly r = true ->
  parseInt (String a r) = digitsPrefix 10 (String a r) None.
Proof.
  intros Ha Hr. destruct (isDigit_plain a Ha) as (Hw & Hm & Hp & _).
  unfold parseInt. cbn [skipWhite]. rewrite Hw.
  assert (Hsign : match String a r with
                  | String "-"%char r0 => ((-1)%Z, r0)
                  | String "+"%char r0 => (1%Z, r0)
                  | _ => (1%Z, String a r)
                  end = (1%Z, String a r)).
  { destruct a as [[] [] [] [] [] [] [] []]; try reflexivity;
      exfalso; (now apply Hm) || (now apply Hp). }
  rewrite Hsign. cbn [fst snd].
  assert (Hbase : match String a r with
                  | String "0"%char (String "x"%char r0) => (16%Z, r0)
                  | String "0"%char (String "X"%char r0) => (16%Z, r0)
                  | _ => (10%Z, String a r)
                  end = (10%Z, String a r)).
  { destruct r as [|b r']; [destruct a as [[] [] [] [] [] [] [] []]; reflexivity|].
    cbn [digitsOnly] in Hr. apply andb_true_iff in Hr as [Hb _].
    destruct (isDigit_plain b Hb) as (_ & _ & _ & Hx & HX).
    destruct a as [[] [] [] [] [] [] [] []]; try reflexivity;
      destruct b as [[] [] [] [] [] [] [] []]; try reflexivity;
      exfalso; (now apply Hx) || (now apply HX). }
  rewrite Hbase. cbn [fst snd].
  destruct (digitsPrefix 10 (String a r) None); simpl; [|reflexivity].
  f_equal. now destruct z.
Qed.



(** The digits the library prints for a decimal number. *)
Lemma string_of_uint_digitsOnly (d : Decimal.uint) :
  digitsOnly (NilEmpty.string_of_uint d) = true.
Proof. induction d; simpl; auto. Qed.

Lemma digitsPrefix_Some (radix : Z) (a : ascii) (r : string) (acc : Z) :
  digitsPrefix radix (String a r) (Some acc)
  = match digitValue a with
    | Some d => if (d <? radix)%Z
                then digitsPrefix radix r (Some (radix * acc + d)%Z)
                else Some acc
    | None => Some acc
    end.
Proof. reflexivity. Qed.

Ltac read_digit :=
  rewrite digitsPrefix_Some;
  match goal with
  | |- context [digitValue ?c] =>
      let v := eval vm_compute in (digitValue c) in
      change (digitValue c) with v
  end;
  cbv iota;
  match goal with
  | |- context [(?d <? 10)%Z] => change (d <? 10)%Z with true
  end;
  cbv iota.

Lemma digitsPrefix_uint_pos (d : Decimal.uint) :
  forall acc : positive,
    digitsPrefix 10 (NilEmpty.string_of_uint d) (Some (Z.pos acc))
    = Some (Z.pos (Pos.of_uint_acc d acc)).
Proof.
  induction d; intro acc; cbn [NilEmpty.string_of_uint Pos.of_uint_acc];
    [reflexivity | ..];
    read_digit; rewrite <- IHd; f_equal; f_equal; lia.
Qed.

Lemma digitsPrefix_uint_zero (d : Decimal.uint) :
  digitsPrefix 10 (NilEmpty.string_of_uint d) (Some 0%Z)
  = Some (Z.of_N (Pos.of_uint d)).
Proof.
  induction d; cbn [NilEmpty.string_of_uint Pos.of_uint];
    [reflexivity | ..];
    read_digit; [exact IHd | ..];
    match goal with
    | |- digitsPrefix 10 _ (Some ?k) = _ =>
        let k' := eval vm_compute in k in change k with k'
    end; rewrite digitsPrefix_uint_pos; reflexivity.
Qed.

Lemma to_uint_not_Nil (p : positive) : Pos.to_uint p <> Decimal.Nil.
Proof.
  intro H. pose proof (DecimalPos.Unsigned.of_to p) as E.
  rewrite H in E. discriminate.
Qed.

(** The conversion of the printed digits of a positive number, with any
    number of zeros in front, is the number. *)
Lemma digitsPrefix_to_uint (p : positive) :
  digitsPrefix 10 (NilEmpty.string_of_uint (Pos.to_uint p)) (Some 0%Z)
  = Some (Z.pos p).
Proof.
  rewrite digitsPrefix_uint_zero, DecimalPos.Unsigned.of_to. reflexivity.
Qed.

Lemma toString_pos (p : positive) :
  toString (Z.pos p) = NilEmpty.string_of_uint (Pos.to_uint p).
Proof.
  unfold toString. cbn [Z.to_int NilZero.string_of_int].
  pose proof (to_uint_not_Nil p).
  unfold NilZero.string_of_uint. destruct (Pos.to_uint p); congruence.
Qed.

Lemma toString_nonneg_digitsOnly (n : Z) :
  (0 <= n)%Z -> digitsOnly (toString n) = true /\ toString n <> ""%string.
Proof.
  intro Hn. destruct n as [|p|p]; [split; [reflexivity | discriminate] | | lia].
  rewrite toString_pos. split; [apply string_of_uint_digitsOnly|].
  pose proof (to_uint_not_Nil p). destruct (Pos.to_uint p); simpl; congruence.
Qed.

(** Reading back a printed natural number, also behind zeros. *)
Lemma digitsPrefix_toString (n : Z) :
  (0 <= n)%Z -> digitsPrefix 10 (toString n) (Some 0%Z) = Some n.
Proof.
  intro Hn. destruct n as [|p|p]; [reflexivity | | lia].
  rewrite toString_pos. apply digitsPrefix_to_uint.
Qed.

Lemma digitsPrefix_from_zero (s : string) :
  s <> ""%string -> digitsOnly s = true ->
  digitsPrefix 10 s None = digitsPrefix 10 s (Some 0%Z).
Proof.
  intros Hne Hs. destruct s as [|a r]; [congruence|].
  cbn [digitsOnly] in Hs. apply andb_true_iff in Hs as [Ha _].
  destruct (isDigit_digitValue a Ha) as (d & Hd & Hrange).
  cbn [digitsPrefix]. rewrite Hd.
  assert (Hlt : (d <? 10)%Z = true) by (apply Z.ltb_lt; lia).
  now rewrite Hlt.
Qed.

End DecimalText.

(** X6.  For an integer of magnitude below 2^31, where the code prints
    plain decimal digits and multiplies by 60 exactly, [parseInt] reads back
    what [toString] prints, so a minutes preset gives a session whose limit
    is that many minutes in seconds, with no round target. *)
Theorem parseInt_toString_roundtrip (n : Z) :
  (- 2 ^ 31 < n < 2 ^ 31)%Z ->
  parseInt (toString n) = Some n
  /\ (forall tPulse tStart now s,
        timeLimitSeconds (startWithPreset n tPulse tStart now s)
        = (n * 60)%Z
        /\ targetRounds (startWithPreset n tPulse tStart now s) = 0%Z).
Proof.
  intros _.
  assert (Hparse : parseInt (toString n) = Some n).
  { destruct n as [|p|p].
    - reflexivity.
    - destruct (toString_nonneg_digitsOnly (Z.pos p) ltac:(lia)) as [Hd Hne].
      destruct (toString (Z.pos p)) as [|a r] eqn:E; [congruence|].
      cbn [digitsOnly] in Hd. apply andb_true_iff in Hd as [Ha Hr].
      rewrite (parseInt_digits a r Ha Hr), <- E.
      rewrite digitsPrefix_from_zero.
      + apply digitsPrefix_toString. lia.
      + rewrite E. discriminate.
      + rewrite E. cbn [digitsOnly]. now rewrite Ha, Hr.
    - unfold toString. cbn [Z.to_int NilZero.string_of_int].
      pose proof (to_uint_not_Nil p) as Hnil.
      assert (Hs : NilZero.string_of_uint (Pos.to_uint p)
                   = toString (Z.pos p)) by reflexivity.
      rewrite Hs.
      destruct (toString_nonneg_digitsOnly (Z.pos p) ltac:(lia)) as [Hd Hne].
      unfold parseInt. cbn [skipWhite]. change (isWhite "-") with false.
      cbv iota. cbn [fst snd].
      destruct (toString (Z.pos p)) as [|a r] eqn:E; [congruence|].
      cbn [digitsOnly] in Hd. apply andb_true_iff in Hd as [Ha Hr].
      pose proof (parseInt_digits a r Ha Hr) as Hp.
      assert (Hv : digitsPrefix 10 (String a r) None = Some (Z.pos p)).
      { rewrite <- E, digitsPrefix_from_zero.
        - apply digitsPrefix_toString. lia.
        - rewrite E. discriminate.
        - rewrite E. cbn [digitsOnly]. now rewrite Ha, Hr. }
      assert (Hbase : match String a r with
                      | String "0"%char (String "x"%char r0) => (16%Z, r0)
                      | String "0"%char (String "X"%char r0) => (16%Z, r0)
                      | _ => (10%Z, String a r)
                      end = (10%Z, String a r)).
      { destruct r as [|b r']; [destruct a as [[] [] [] [] [] [] [] []]; reflexivity|].
        cbn [digitsOnly] in Hr. apply andb_true_iff in Hr as [Hb _].
        destruct (isDigit_plain b Hb) as (_ & _ & _ & Hx & HX).
        destruct a as [[] [] [] [] [] [] [] []]; try reflexivity;
          destruct b as [[] [] [] [] [] [] [] []]; try reflexivity;
          exfalso; (now apply Hx) || (now apply HX). }
      rewrite Hbase. cbn [fst snd]. rewrite Hv. reflexivity. }
  split; [exact Hparse|].
  intros tPulse tStart now s.
  destruct (startWithPreset_targets n tPulse tStart now s)
    as (_ & Htl & Htg & _).
  split; [|exact Htg].
  unfold timeLimitSeconds. rewrite Htl, Hparse. reflexivity.
Qed.

(** The ten-minute preset. *)
Lemma parseInt_toString_roundtrip_witness :
  parseInt (toString 10) = Some 10%Z
  /\ timeLimitSeconds (startWithPreset 10 0 0 0 initialState) = 600%Z.
Proof.
  destruct (parseInt_toString_roundtrip 10 ltac:(lia)) as [H1 H2].
  split; [exact H1 | exact (proj1 (H2 0 0 0 initialState))].
Defined.

(** ** The elapsed-time text *)

Section FormatTime.

Lemma padStart2_digitsOnly (s : string) :
  digitsOnly s = true -> digitsOnly (padStart2 s) = true.
Proof.
  intro H. unfold padStart2.
  destruct (String.length s) as [|[|n]]; cbn [digitsOnly]; now rewrite ?H.
Qed.

Lemma padStart2_length (s : string) : (2 <= String.length (padStart2 s))%nat.
Proof.
  unfold padStart2. destruct (String.length s) as [|[|n]] eqn:E.
  - destruct s; [simpl; lia | discriminate].
  - simpl. lia.
  - lia.
Qed.

(** Zeros in front do not change the number read. *)
Lemma digitsPrefix_padStart2 (s : string) :
  digitsPrefix 10 (padStart2 s) (Some 0%Z) = digitsPrefix 10 s (Some 0%Z).
Proof.
  unfold padStart2. destruct (String.length s) as [|[|n]]; reflexivity.
Qed.

Lemma parseInt_padStart2_toString (n : Z) :
  (0 <= n)%Z -> parseInt (padStart2 (toString n)) = Some n.
Proof.
  intro Hn.
  destruct (toString_nonneg_digitsOnly n Hn) as [Hd Hne].
  pose proof (padStart2_digitsOnly _ Hd) as Hpd.
  pose proof (padStart2_length (toString n)) as Hlen.
  destruct (padStart2 (toString n)) as [|a r] eqn:E; [simpl in Hlen; lia|].
  pose proof Hpd as Hpd'.
  cbn [digitsOnly] in Hpd. apply andb_true_iff in Hpd as [Ha Hr].
  rewrite (parseInt_digits a r Ha Hr), digitsPrefix_from_zero;
    [|discriminate | exact Hpd'].
  rewrite <- E, digitsPrefix_padStart2. now apply digitsPrefix_toString.
Qed.

Lemma padStart2_two_digits (n : Z) :
  (0 <= n < 100)%Z -> String.length (padStart2 (toString n)) = 2%nat.
Proof.
  intro Hn.
  assert (Hall : forallb
            (fun k => (String.length (padStart2 (toString (Z.of_nat k)))
                       =? 2)%nat) (seq 0 100) = true)
    by (vm_compute; reflexivity).
  rewrite forallb_forall in Hall.
  specialize (Hall (Z.to_nat n)).
  rewrite Z2Nat.id in Hall by lia.
  apply Nat.eqb_eq, Hall, in_seq. lia.
Qed.

End FormatTime.

(** X1.  For a non-negative number of whole seconds below 2^31, where the
    code's division and printing are exact, [formatTime] prints a
    minutes part, a colon and a seconds part, both of decimal digits; the
    seconds part has exactly two characters and the minutes part at least
    two (exactly two below 100 minutes).  Reading the parts back with
    [parseInt] gives the minutes and the seconds below 60 that make up the
    input. *)
Theorem formatTime_reads_back (seconds : Z) :
  (0 <= seconds < 2 ^ 31)%Z ->
  exists mm ss m sec,
    formatTime seconds = (mm ++ ":" ++ ss)%string
    /\ digitsOnly mm = true /\ digitsOnly ss = true
    /\ String.length ss = 2%nat
    /\ (2 <= String.length mm)%nat
    /\ (seconds < 6000 -> String.length mm = 2%nat)%Z
    /\ parseInt mm = Some m /\ parseInt ss = Some sec
    /\ (0 <= sec < 60)%Z
    /\ (m * 60 + sec = seconds)%Z.
Proof.
  intros [Hs _].
  assert (Hrem : Z.rem seconds 60 = (seconds mod 60)%Z)
    by (apply Z.rem_mod_nonneg; lia).
  exists (padStart2 (toString (seconds / 60))),
         (padStart2 (toString (Z.rem seconds 60))),
         (seconds / 60)%Z, (seconds mod 60)%Z.
  assert (Hm : (0 <= seconds / 60)%Z) by (apply Z.div_pos; lia).
  assert (Hsec : (0 <= seconds mod 60 < 60)%Z) by (apply Z.mod_pos_bound; lia).
  split; [reflexivity|].
  split; [apply padStart2_digitsOnly, toString_nonneg_digitsOnly, Hm|].
  rewrite Hrem.
  split; [apply padStart2_digitsOnly, toString_nonneg_digitsOnly; lia|].
  split; [apply padStart2_two_digits; lia|].
  split; [apply padStart2_length|].
  split.
  { intro Hlt. apply padStart2_two_digits. split; [exact Hm|].
    apply Z.div_lt_upper_bound; lia. }
  split; [now apply parseInt_padStart2_toString|].
  split; [apply parseInt_padStart2_toString; lia|].
  split; [exact Hsec|].
  pose proof (Z.div_mod seconds 60 ltac:(lia)). lia.
Qed.

(** 125 seconds print as 02:05. *)
Lemma formatTime_reads_back_witness :
  exists mm ss m sec,
    formatTime 125 = (mm ++ ":" ++ ss)%string
    /\ digitsOnly mm = true /\ digitsOnly ss = true
    /\ String.length ss = 2%nat
    /\ (2 <= String.length mm)%nat
    /\ (125 < 6000 -> String.length mm = 2%nat)%Z
    /\ parseInt mm = Some m /\ parseInt ss = Some sec
    /\ (0 <= sec < 60)%Z
    /\ (m * 60 + sec = 125)%Z.
Proof.
  apply (formatTime_reads_back 125). lia.
Defined.

(** ** Colours *)

Section Colours.

Lemma isHexDigit_digitValue (a : ascii) :
  isHexDigit a = true ->
  exists d, digitValue a = Some d /\ (0 <= d < 16)%Z.
Proof.
  unfold isHexDigit. destruct (digitValue a) as [d|] eqn:E; [|discriminate].
  intro H. apply Z.ltb_lt in H. exists d. split; [reflexivity|].
  split; [|exact H].
  unfold digitValue in E.
  repeat match type of E with
         | (if ?c then _ else _) = _ =>
             let Hc := fresh "Hc" in
             destruct c eqn:Hc;
             [apply andb_true_iff in Hc as [Hc _]; apply Z.leb_le in Hc;
              inversion E; lia|]
         end.
  discriminate.
Qed.

Lemma isHexDigit_plain (a : ascii) :
  isHexDigit a = true ->
  isWhite a = false /\ a <> "-"%char /\ a <> "+"%char
  /\ a <> "x"%char /\ a <> "X"%char.
Proof.
  destruct a as [[] [] [] [] [] [] [] []]; intro H;
    try discriminate H; repeat split; discriminate.
Qed.

(** The conversion of [k] hexadecimal digits appends them to the value
    read so far. *)
Lemma digitsPrefix_hex (s : string) :
  hexDigitsOnly s = true ->
  forall acc, (0 <= acc)%Z ->
    exists v, digitsPrefix 16 s (Some acc) = Some v
      /\ (acc * 16 ^ Z.of_nat (String.length s) <= v
          < (acc + 1) * 16 ^ Z.of_nat (String.length s))%Z.
Proof.
  induction s as [|a r IH]; intros Hs acc Hacc; cbn [hexDigitsOnly] in Hs.
  - exists acc. split; [reflexivity|]. simpl. lia.
  - apply andb_true_iff in Hs as [Ha Hr].
    destruct (isHexDigit_digitValue a Ha) as (d & Hd & Hrange).
    rewrite digitsPrefix_Some, Hd.
    assert (Hlt : (d <? 16)%Z = true) by (apply Z.ltb_lt; lia).
    rewrite Hlt.
    destruct (IH Hr (16 * acc + d)%Z ltac:(lia)) as (v & Hv & Hle).
    exists v. split; [exact Hv|].
    cbn [String.length]. rewrite Nat2Z.inj_succ, Z.pow_succ_r by lia.
    set (P := (16 ^ Z.of_nat (String.length r))%Z) in *.
    assert (0 < P)%Z by (apply Z.pow_pos_nonneg; lia).
    nia.
Qed.

(** [parseInt(s, 16)] of a non-empty string of hexadecimal digits. *)
Lemma parseInt16_hex (a : ascii) (r : string) :
  isHexDigit a = true -> hexDigitsOnly r = true ->
  parseInt16 (String a r) = digitsPrefix 16 (String a r) None.
Proof.
  intros Ha Hr. destruct (isHexDigit_plain a Ha) as (Hw & Hm & Hp & _).
  unfold parseInt16. cbn [skipWhite]. rewrite Hw.
  assert (Hsign : match String a r with
                  | String "-"%char r0 => ((-1)%Z, r0)
                  | String "+"%char r0 => (1%Z, r0)
                  | _ => (1%Z, String a r)
                  end = (1%Z, String a r)).
  { destruct a as [[] [] [] [] [] [] [] []]; try reflexivity;
      exfalso; (now apply Hm) || (now apply Hp). }
  rewrite Hsign. cbn [fst snd].
  assert (Hbase : match String a r with
                  | String "0"%char (String "x"%char r0) => r0
                  | String "0"%char (String "X"%char r0) => r0
                  | _ => String a r
                  end = String a r).
  { destruct r as [|b r']; [destruct a as [[] [] [] [] [] [] [] []]; reflexivity|].
    cbn [hexDigitsOnly] in Hr. apply andb_true_iff in Hr as [Hb _].
    destruct (isHexDigit_plain b Hb) as (_ & _ & _ & Hx & HX).
    destruct a as [[] [] [] [] [] [] [] []]; try reflexivity;
      destruct b as [[] [] [] [] [] [] [] []]; try reflexivity;
      exfalso; (now apply Hx) || (now apply HX). }
  rewrite Hbase.
  destruct (digitsPrefix 16 (String a r) None); simpl; [|reflexivity].
  f_equal. now destruct z.
Qed.

Lemma land_255 (x : Z) : Z.land x 255 = (x mod 256)%Z.
Proof. change 255%Z with (Z.ones 8). now rewrite Z.land_ones by lia. Qed.

End Colours.

(** X2.  Every channel [hexToRgba] prints lies between 0 and 255, whatever
    the text it is given.  For a ['#'] followed by six hexadecimal digits
    the number read is below 2^24 and the three channels are its three
    bytes, most significant first. *)
Theorem hexToRgba_channels (hex : string) :
  (let '(r, g, b) := hexChannels hex in
   (0 <= r <= 255 /\ 0 <= g <= 255 /\ 0 <= b <= 255)%Z
   /\ forall alphaText,
        hexToRgba hex alphaText
        = ("rgba(" ++ toString r ++ ", " ++ toString g ++ ", "
           ++ toString b ++ ", " ++ alphaText ++ ")")%string)
  /\ (forall digits,
        hex = String "#" digits ->
        hexDigitsOnly digits = true -> String.length digits = 6%nat ->
        exists n,
          parseInt16 digits = Some n /\ (0 <= n < 2 ^ 24)%Z
          /\ hexChannels hex
             = ((n / 65536)%Z, ((n / 256) mod 256)%Z, (n mod 256)%Z)
          /\ (n / 65536 * 65536 + (n / 256) mod 256 * 256 + n mod 256
              = n)%Z).
Proof.
  split.
  - unfold hexToRgba, hexChannels. cbv beta zeta iota.
    rewrite !land_255. split; [|reflexivity].
    repeat split; apply Z.mod_pos_bound || (apply Z.lt_succ_r;
      apply Z.mod_pos_bound); lia.
  - intros digits -> Hd Hlen.
    destruct digits as [|a r]; [discriminate|].
    pose proof Hd as Hd'. cbn [hexDigitsOnly] in Hd.
    apply andb_true_iff in Hd as [Ha Hr].
    destruct (isHexDigit_digitValue a Ha) as (d & Hdv & Hrange).
    assert (Hparse : parseInt16 (String a r)
                     = digitsPrefix 16 (String a r) (Some 0%Z)).
    { rewrite (parseInt16_hex a r Ha Hr), digitsPrefix_None,
        digitsPrefix_Some. rewrite Hdv.
      assert (Hlt : (d <? 16)%Z = true) by (apply Z.ltb_lt; lia).
      now rewrite Hlt. }
    destruct (digitsPrefix_hex (String a r) Hd' 0%Z ltac:(lia))
      as (n & Hn & Hbound).
    rewrite Hlen in Hbound. change (16 ^ Z.of_nat 6)%Z with (2 ^ 24)%Z in Hbound.
    exists n. rewrite Hparse, Hn.
    assert (Hn24 : (0 <= n < 2 ^ 24)%Z) by lia.
    split; [reflexivity|]. split; [exact Hn24|].
    assert (H32 : toInt32 (Some n) = n).
    { unfold toInt32. change (2 ^ 24)%Z with 16777216%Z in Hn24.
      rewrite Z.mod_small; lia. }
    split.
    + unfold hexChannels. cbn [removeFirst].
      change (Ascii.eqb "#" "#") with true. cbv iota.
      rewrite Hparse, Hn, H32, !land_255, !Z.shiftr_div_pow2 by lia.
      change (2 ^ 16)%Z with 65536%Z. change (2 ^ 8)%Z with 256%Z.
      change (2 ^ 24)%Z with 16777216%Z in Hn24.
      rewrite (Z.mod_small (n / 65536) 256); [reflexivity|].
      split; [apply Z.div_pos; lia|].
      apply Z.div_lt_upper_bound; lia.
    + change (2 ^ 24)%Z with 16777216%Z in Hn24.
      Z.to_euclidean_division_equations. lia.
Qed.

(** The colour of the first phase. *)
Lemma hexToRgba_channels_witness :
  exists n,
    parseInt16 "f97316"%string = Some n /\ (0 <= n < 2 ^ 24)%Z
    /\ hexChannels "#f97316"%string
       = ((n / 65536)%Z, ((n / 256) mod 256)%Z, (n mod 256)%Z)
    /\ (n / 65536 * 65536 + (n / 256) mod 256 * 256 + n mod 256 = n)%Z.
Proof.
  apply (proj2 (hexToRgba_channels "#f97316"%string) "f97316"%string);
    reflexivity.
Defined.

(** ** Runtime fields in reachable states *)

Section SessionInvariant.

Lemma wrapsAt_newCount (now : Q) (s : State) :
  wrapsAt now s = true -> newCountAt now s = 0%nat.
Proof.
  unfold wrapsAt, isWraparound. intro H.
  apply andb_true_iff in H as [_ H]. apply andb_true_iff in H as [_ H].
  now apply Nat.eqb_eq in H.
Qed.

(** A frame of a playing, not complete session keeps the invariant. *)
Lemma sessionInv_frame (now : Q) (s : State) :
  isPlaying s = true -> sessionComplete s = false ->
  hasStarted s = true -> startTime s <> None ->
  (0 <= completedRounds s)%Z ->
  ((0 < targetRounds s)%Z ->
   exerciseType s = fourSevenEight
   /\ (completedRounds s < targetRounds s)%Z) ->
  sessionInv (animate now s).
Proof.
  intros Hp Hc Hs Hst Hcr Htg. unfold sessionInv.
  rewrite (animate_hasStarted now s Hp), (animate_isPlaying now s Hp),
    (animate_count now s Hp), animate_getCurrentPhases,
    (animate_startTime now s Hp), (animate_sessionComplete now s Hp),
    (animate_completedRounds now s Hp), (animate_targetRounds now s Hp),
    Hs, Hc.
  cbn [andb orb].
  split; [reflexivity|].
  split; [apply findPhase_index, getCurrentPhases_nonempty|].
  split.
  { intro H. apply negb_false_iff, andb_true_iff in H as [Hw _].
    now apply wrapsAt_newCount. }
  split; [intros _; exact Hst|].
  split.
  { intros H1 H2. apply negb_false_iff in H1. congruence. }
  split; [destruct (wrapsAt now s); lia|].
  intros Hplay Hpos. apply negb_true_iff in Hplay.
  destruct (Htg Hpos) as [Het Hlt].
  destruct (wrapsAt now s) eqn:Hw; [|lia].
  cbn [andb] in Hplay. apply orb_false_iff in Hplay as [Hdone _].
  unfold roundsDoneAt in Hdone. rewrite Het in Hdone.
  apply Z.ltb_lt in Hpos. rewrite Hpos in Hdone. cbn [ExerciseType_eqb andb] in Hdone.
  apply Z.leb_gt in Hdone. lia.
Qed.

(** A start operation establishes the invariant: its first frame runs on
    a playing state with phase index 0, no completed round and a start
    time. *)
Lemma sessionInv_first_frame (now : Q) (b : State) :
  isPlaying b = true -> sessionComplete b = false ->
  hasStarted b = true -> startTime b <> None ->
  completedRounds b = 0%Z ->
  ((0 < targetRounds b)%Z -> exerciseType b = fourSevenEight) ->
  sessionInv (animate now b).
Proof.
  intros Hp Hc Hs Hst Hcr Htg.
  apply sessionInv_frame; try assumption; [lia|].
  intro Hpos. split; [now apply Htg | lia].
Qed.

(** An operation that leaves the runtime fields alone keeps the invariant
    of an idle state. *)
Lemma sessionInv_idle_same (s s' : State) :
  sessionInv s -> isPlaying s = false ->
  isPlaying s' = isPlaying s -> hasStarted s' = hasStarted s ->
  count s' = count s -> startTime s' = startTime s ->
  pulseStartTime s' = pulseStartTime s ->
  sessionComplete s' = sessionComplete s -> totalTime s' = totalTime s ->
  completedRounds s' = completedRounds s ->
  targetRounds s' = targetRounds s ->
  sessionInv s'.
Proof.
  intros (H1 & H2 & H3 & H4 & H5 & H6 & H7) Hidle E1 E2 E3 E4 E5 E6 E7 E8 E9.
  unfold sessionInv. rewrite E1, E2, E3, E4, E5, E6, E7, E8, E9.
  repeat split; try assumption; try (now apply H5).
  rewrite (H3 Hidle).
  pose proof (getCurrentPhases_nonempty s').
  destruct (getCurrentPhases s'); [congruence | simpl; lia].
Qed.

Lemma sessionInv_stopped (s : State) :
  isPlaying s = false -> hasStarted s = false -> count s = 0%nat ->
  totalTime s = 0%Z -> completedRounds s = 0%Z ->
  startTime s = None -> pulseStartTime s = None ->
  sessionInv s.
Proof.
  intros Hp Hs Hc Ht Hr Hst Hpu. unfold sessionInv.
  rewrite Hp, Hs, Hc, Ht, Hr, Hst, Hpu.
  repeat split; try discriminate; try lia.
  pose proof (getCurrentPhases_nonempty s).
  destruct (getCurrentPhases s); [congruence | simpl; lia].
Qed.

Lemma sessionInv_start (saved : option Settings) :
  sessionInv (loadSettings saved initialState).
Proof.
  apply sessionInv_stopped;
    destruct saved as [[[a|] [b|] [c|] [d|] [e|]]|]; reflexivity.
Qed.

Lemma sessionInv_event (s : State) (e : Event) :
  reachable s -> sessionInv s -> enabled e s = true ->
  sessionInv (handle e s).
Proof.
  intros Hr Hinv Hen.
  destruct (reachable_targetsInv s Hr) as [_ Htargets].
  destruct (reachable_flagsInv s Hr) as [_ Hflags].
  assert (Hidle : forall b, idle s && b = true -> isPlaying s = false).
  { intros b H. apply andb_true_iff in H as [H _]. unfold idle in H.
    apply andb_true_iff in H as [H _]. now apply negb_true_iff in H. }
  destruct e; cbn [handle enabled] in *.
  - (* play / pause *)
    unfold togglePlay. cbn [isPlaying set_isPlaying].
    destruct (isPlaying s) eqn:Hp; cbn [negb].
    + now apply sessionInv_stopped.
    + rewrite togglePlay_begin_eq.
      apply sessionInv_first_frame; try reflexivity; [discriminate|].
      cbn [targetRounds exerciseType set_isPlaying timeLimit].
      destruct (ExerciseType_eqb (exerciseType s) fourSevenEight) eqn:Et;
        cbn [andb]; [intros _; now apply ExerciseType_eqb_eq | lia].
  - now apply sessionInv_stopped.
  - apply (sessionInv_idle_same s); try reflexivity; try assumption.
    now apply (Hidle true); rewrite andb_true_r.
  - apply (sessionInv_idle_same s); try reflexivity; try assumption.
    now apply (Hidle true); rewrite andb_true_r.
  - apply (sessionInv_idle_same s); try reflexivity; try assumption.
    now apply (Hidle true); rewrite andb_true_r.
  - apply (sessionInv_idle_same s); try assumption;
      [now apply (Hidle true); rewrite andb_true_r | destruct type; reflexivity ..].
  - apply (sessionInv_idle_same s); try assumption;
      [now apply (Hidle (hasPhaseTimeSlider (exerciseType s))) | ..];
      unfold phaseTimeSliderInput; destruct (exerciseType s); reflexivity.
  - (* rounds preset *)
    apply andb_true_iff in Hen as [Hen _].
    apply andb_true_iff in Hen as [_ Het].
    apply ExerciseType_eqb_eq in Het.
    apply sessionInv_first_frame; try reflexivity; [discriminate|].
    intros _. exact Het.
  - (* minutes preset *)
    apply sessionInv_first_frame; try reflexivity; [discriminate|].
    cbn. lia.
  - (* animation frame *)
    destruct (isPlaying s) eqn:Hp;
      [|now rewrite animate_idle by exact Hp].
    destruct Hinv as (H1 & H2 & H3 & H4 & H5 & H6 & H7).
    apply sessionInv_frame; try assumption.
    + destruct (sessionComplete s); [|reflexivity].
      destruct (Hflags eq_refl). congruence.
    + congruence.
    + now apply H4.
    + intro Hpos. split; [|now apply H7].
      apply Htargets. lia.
Qed.

Lemma reachable_sessionInv (s : State) : reachable s -> sessionInv s.
Proof.
  induction 1 as [saved | s e Hr IH Hen].
  - apply sessionInv_start.
  - now apply sessionInv_event.
Qed.

(** Every phase of the catalog has a name. *)
Lemma phase_names_nonempty (s : State) (p : Phase) :
  In p (getCurrentPhases s) -> name p <> ""%string.
Proof.
  unfold getCurrentPhases. destruct (exerciseType s); simpl;
    intros H; repeat (destruct H as [<- | H]; [discriminate|]);
    contradiction.
Qed.

End SessionInvariant.

(** X3.  In every state the page can reach, the phase index is a valid
    index into the phases of the current pattern, so [getInstruction] and
    [getPhaseColor] never take their fallback branch: the instruction shown
    is the non-empty name of the phase at the index and the colour is that
    phase's colour. *)
Theorem instruction_is_current_phase (s : State) :
  reachable s ->
  let phases := getCurrentPhases s in
  (count s < List.length phases)%nat
  /\ (exists p, nth_error phases (count s) = Some p
        /\ In p phases
        /\ getInstruction (count s) s = name p
        /\ getPhaseColor (count s) s = color p)
  /\ getInstruction (count s) s <> ""%string.
Proof.
  intros Hr phases.
  destruct (reachable_sessionInv s Hr) as (_ & Hlt & _).
  fold phases in Hlt.
  assert (Hnth : nth_error phases (count s)
                 = Some (nth (count s) phases (mkPhase "" 0 "")))
    by (now apply nth_error_nth').
  assert (Hin : In (nth (count s) phases (mkPhase "" 0 "")) phases)
    by (now apply nth_In).
  assert (Hins : getInstruction (count s) s
                 = name (nth (count s) phases (mkPhase "" 0 ""))).
  { unfold getInstruction. fold phases.
    apply Nat.ltb_lt in Hlt. now rewrite Hlt. }
  split; [exact Hlt|]. split.
  - eexists. split; [exact Hnth|]. split; [exact Hin|].
    split; [exact Hins|].
    unfold getPhaseColor. fold phases.
    apply Nat.ltb_lt in Hlt. now rewrite Hlt.
  - rewrite Hins. now apply (phase_names_nonempty s).
Qed.

(** The 4-7-8 session with "4" typed. *)
Lemma instruction_is_current_phase_witness :
  (count typedFour < List.length (getCurrentPhases typedFour))%nat
  /\ getInstruction (count typedFour) typedFour <> ""%string.
Proof.
  destruct (instruction_is_current_phase typedFour
              (run_reachable _ _ _ initialState_reachable typedFour_run))
    as (H1 & _ & H3).
  split; [exact H1 | exact H3].
Defined.

(** X10.  In every state the page can reach, [hasStarted] equals
    [isPlaying]; a session is never both playing and complete, and a
    complete session rests on phase index 0; and whenever the page is idle
    (neither playing nor complete) the runtime fields are torn down: no
    elapsed time, no completed round, no round target, the time-limit flag
    clear, no start time, no pulse, phase index 0. *)
Theorem runtime_torn_down_when_idle (s : State) :
  reachable s ->
  hasStarted s = isPlaying s
  /\ (sessionComplete s = true -> isPlaying s = false /\ count s = 0%nat)
  /\ (isPlaying s = true -> startTime s <> None /\ sessionComplete s = false)
  /\ (idle s = true ->
      totalTime s = 0%Z /\ completedRounds s = 0%Z /\ targetRounds s = 0%Z
      /\ timeLimitReached s = false /\ startTime s = None
      /\ pulseStartTime s = None /\ count s = 0%nat).
Proof.
  intro Hr.
  destruct (reachable_sessionInv s Hr) as (H1 & H2 & H3 & H4 & H5 & H6 & H7).
  destruct (reachable_flagsInv s Hr) as [F1 F2].
  destruct (reachable_targetsInv s Hr) as [T1 _].
  split; [exact H1|]. split.
  - intro Hc. destruct (F2 Hc) as [Hp _]. split; [exact Hp | now apply H3].
  - split.
    + intro Hp. split; [now apply H4|].
      destruct (sessionComplete s); [|reflexivity].
      destruct (F2 eq_refl). congruence.
    + intro Hidle. unfold idle in Hidle.
      apply andb_true_iff in Hidle as [Hp Hc].
      apply negb_true_iff in Hp, Hc.
      destruct (H5 Hp Hc) as (A & B & C & D).
      repeat split; auto.
Qed.

(** After a pause. *)
Lemma runtime_torn_down_when_idle_witness :
  hasStarted coherentIdle = isPlaying coherentIdle
  /\ totalTime coherentIdle = 0%Z.
Proof.
  destruct (runtime_torn_down_when_idle coherentIdle coherentIdle_reachable)
    as (H1 & _ & _ & H4).
  split; [exact H1 | exact (proj1 (H4 eq_refl))].
Defined.

(** X9.  In every reachable state that is playing with a round target, the
    timer line reads "Round k of n" with k between 1 and n: the round shown
    never exceeds the target. *)
Theorem round_label_within_target (s : State) :
  reachable s -> isPlaying s = true -> (0 < targetRounds s)%Z ->
  exists k,
    timerText s
    = ("Round " ++ toString k ++ " of " ++ toString (targetRounds s))%string
    /\ k = (completedRounds s + 1)%Z
    /\ (1 <= k <= targetRounds s)%Z.
Proof.
  intros Hr Hp Hpos.
  destruct (reachable_sessionInv s Hr) as (_ & _ & _ & _ & _ & H6 & H7).
  destruct (reachable_targetsInv s Hr) as [_ Htargets].
  destruct (Htargets ltac:(lia)) as [Het _].
  exists (completedRounds s + 1)%Z. split; [|split; [reflexivity|]].
  - unfold timerText. rewrite Het. apply Z.ltb_lt in Hpos.
    now rewrite Hpos.
  - specialize (H7 Hp Hpos). lia.
Qed.

Lemma round_label_within_target_witness :
  exists k,
    timerText typedFour
    = ("Round " ++ toString k ++ " of " ++ toString (targetRounds typedFour))%string
    /\ k = (completedRounds typedFour + 1)%Z
    /\ (1 <= k <= targetRounds typedFour)%Z.
Proof.
  apply (round_label_within_target typedFour
           (run_reachable _ _ _ initialState_reachable typedFour_run));
    reflexivity.
Defined.

(** ** The time-limit field *)

Section TimeLimitField.





End TimeLimitField.



(** ** Stored settings *)

Section StoredSettings.

Lemma configOf_load_settingsOf (s t : State) :
  configOf (loadSettings (Some (settingsOf s)) t) = configOf s.
Proof. reflexivity. Qed.

Lemma configOf_animate (now : Q) (s : State) :
  configOf (animate now s) = configOf s.
Proof.
  destruct (isPlaying s) eqn:Hp; [|now rewrite animate_idle].
  unfold configOf.
  now rewrite (animate_soundEnabled now s Hp),
    (animate_countdownEnabled now s Hp), (animate_exerciseType now s Hp),
    (animate_phaseTime now s Hp), (animate_exhaleDuration now s Hp).
Qed.

(** The operations that do not call [saveSettings] do not change a
    setting either. *)
Lemma configOf_unsaved (e : Event) (s : State) :
  savesSettings e = false -> configOf (handle e s) = configOf s.
Proof.
  destruct e; cbn [savesSettings handle]; try discriminate; intros _.
  - unfold togglePlay. cbn [isPlaying set_isPlaying].
    destruct (negb (isPlaying s)); [|reflexivity].
    now rewrite configOf_animate, togglePlay_begin_eq.
  - reflexivity.
  - reflexivity.
  - unfold startWithRounds. now rewrite configOf_animate.
  - unfold startWithPreset. now rewrite configOf_animate.
  - apply configOf_animate.
Qed.

Lemma persisted_event (p : Page) (e : Event) :
  configOf (reloaded p) = configOf (fst p) ->
  configOf (reloaded (handlePage true e p))
  = configOf (fst (handlePage true e p)).
Proof.
  intro H. unfold handlePage, reloaded. cbn [fst snd].
  destruct (savesSettings e) eqn:E.
  - apply configOf_load_settingsOf.
  - rewrite (configOf_unsaved e _ E). exact H.
Qed.

End StoredSettings.

(** X4.  While storage accepts every write and holds finite numbers, in
    every page reached from a load of empty storage or of stored settings
    of any of the five fields, a reload restores exactly the five
    settings the page has: every handler that changes a setting saves all
    five afterwards, and no other operation changes one.  A write that
    fails leaves storage as it was. *)
Theorem settings_survive_reload (p : Page) :
  pageReachable p ->
  configOf (reloaded p) = configOf (fst p)
  /\ reachable (fst p)
  /\ (forall e, snd (handlePage false e p) = snd p).
Proof.
  intro H. split; [|split].
  - induction H as [stored | p e _ IH Hen].
    + reflexivity.
    + now apply persisted_event.
  - induction H as [stored | p e _ IH Hen].
    + apply reachable_start.
    + now apply reachable_event.
  - intro e. unfold handlePage. cbn [snd].
    now destruct (savesSettings e).
Qed.

(** Coherent breathing chosen and the slider moved to 4.5 s, from empty
    storage. *)
Lemma settings_survive_reload_witness :
  let p := handlePage true (InputSlider (9 # 2))
             (handlePage true (ClickExercise coherent)
                (loadSettings None initialState, None)) in
  configOf (reloaded p) = configOf (fst p)
  /\ exerciseType (reloaded p) = coherent.
Proof.
  cbv zeta. split; [|reflexivity].
  apply settings_survive_reload.
  apply pageReachable_event; [|reflexivity].
  apply pageReachable_event; [|reflexivity].
  apply pageReachable_start.
Defined.

(** ** Sessions started by a rounds preset *)

Section RoundsPreset.

Lemma roundsMode_frame (target : Z) (now : Q) (s : State) :
  (0 < target)%Z -> roundsMode target s -> roundsMode target (animate now s).
Proof.
  intros Hpos Hm.
  destruct (isPlaying s) eqn:Hp; [|now rewrite animate_idle].
  destruct Hm as (Het & Htl & Hflag & Htg & Hcr & Hc & Hplay).
  rewrite Hp in Hplay. symmetry in Hplay. apply negb_true_iff in Hplay.
  rewrite Hplay in Hc. apply Z.eqb_neq in Hplay.
  destruct (rounds_frame_without_limit now s Hp Htl Hflag)
    as (Hcr' & Hflag' & Hc' & Hp').
  assert (Hdone : roundsDoneAt s = (completedRounds s + 1 =? target)%Z).
  { unfold roundsDoneAt. rewrite Het, Htg. apply Z.ltb_lt in Hpos.
    rewrite Hpos. cbn [ExerciseType_eqb andb].
    destruct (Z.leb_spec target (completedRounds s + 1));
      destruct (Z.eqb_spec (completedRounds s + 1) target); lia. }
  unfold roundsMode.
  rewrite (animate_exerciseType now s Hp), (animate_timeLimit now s Hp),
    (animate_targetRounds now s Hp), Hcr', Hflag', Hc', Hp', Hc, Hdone.
  cbn [orb].
  destruct (wrapsAt now s); cbn [andb negb].
  - repeat split; try assumption; try lia.
  - rewrite Z.add_0_r.
    destruct (Z.eqb_spec (completedRounds s) target); [lia|].
    repeat split; try assumption; lia.
Qed.

Lemma roundsMode_frames (target : Z) (ticks : list Q) :
  (0 < target)%Z ->
  forall s, roundsMode target s -> roundsMode target (frames ticks s).
Proof.
  intro Hpos. induction ticks as [|t ticks IH]; intros s Hm; [exact Hm|].
  rewrite frames_cons. apply IH. now apply roundsMode_frame.
Qed.

Lemma startWithRounds_roundsMode (rounds : Z) (tPulse tStart now : Q)
  (s : State) :
  exerciseType s = fourSevenEight -> (0 < rounds)%Z ->
  roundsMode rounds (startWithRounds rounds tPulse tStart now s).
Proof.
  intros Het Hpos. unfold startWithRounds.
  apply roundsMode_frame; [exact Hpos|].
  assert (E : (0 =? rounds)%Z = false) by (apply Z.eqb_neq; lia).
  unfold roundsMode. cbn -[Z.eqb]. rewrite E.
  repeat split; try assumption; try reflexivity; lia.
Qed.

End RoundsPreset.

(** X8.  A session that [startWithRounds] starts on the 4-7-8 pattern with
    a positive number of rounds behaves, over any run of frames, as a round
    counter: the completed rounds stay between 0 and the target, the
    time-limit flag is never set, the session is complete exactly when the
    completed rounds equal the target, and it is playing exactly until
    then. *)
Theorem rounds_preset_counts_to_target
  (rounds : Z) (tPulse tStart now : Q) (s : State) (ticks : list Q) :
  exerciseType s = fourSevenEight -> (0 < rounds)%Z ->
  let s' := frames ticks (startWithRounds rounds tPulse tStart now s) in
  targetRounds s' = rounds
  /\ (0 <= completedRounds s' <= rounds)%Z
  /\ timeLimitReached s' = false
  /\ sessionComplete s' = (completedRounds s' =? rounds)%Z
  /\ isPlaying s' = negb (completedRounds s' =? rounds)%Z.
Proof.
  intros Het Hpos s'. subst s'.
  destruct (roundsMode_frames rounds ticks Hpos _
              (startWithRounds_roundsMode rounds tPulse tStart now s Het Hpos))
    as (_ & _ & Hflag & Htg & Hcr & Hc & Hp).
  repeat split; try assumption; lia.
Qed.

(** One round of 4-7-8 with a frame every second for 19 seconds. *)
Lemma rounds_preset_counts_to_target_witness :
  let s' := frames (everySecond 19)
              (startWithRounds 1 0 0 0
                 (setExerciseType fourSevenEight initialState)) in
  sessionComplete s' = (completedRounds s' =? 1)%Z
  /\ completedRounds s' = 1%Z.
Proof.
  cbv zeta. split; [|vm_compute; reflexivity].
  apply (rounds_preset_counts_to_target 1 0 0 0
           (setExerciseType fourSevenEight initialState) (everySecond 19));
    [reflexivity | lia].
Defined.

(** ** Choosing an exercise *)

(** X7.  Whatever the phase-duration parameters were before (storage may
    have held any numbers), [setExerciseType] leaves a pattern whose phases
    all have a positive duration and whose cycle lasts 16, 19, 10 and 10
    seconds for the four exercises; so on every later frame at or after the
    start time the lookup selects a phase that contains the cycle
    position.  It changes no runtime field. *)
Theorem setExerciseType_repairs_durations (type : ExerciseType) (s : State) :
  let s' := setExerciseType type s in
  exerciseType s' = type
  /\ (forall p, In p (getCurrentPhases s') -> 0 < duration p)
  /\ getTotalCycleTime s'
     == match type with
        | box => 16 | fourSevenEight => 19 | longExhale => 10
        | coherent => 10
        end
  /\ (forall start now, start <= now ->
        activeAt (getCurrentPhases s')
          (cyclePos (getCurrentPhases s') start now)
          (fst (findPhase (getCurrentPhases s')
                  (cyclePos (getCurrentPhases s') start now))))
  /\ (isPlaying s' = isPlaying s /\ count s' = count s
      /\ timeLimit s' = timeLimit s /\ targetRounds s' = targetRounds s
      /\ completedRounds s' = completedRounds s
      /\ startTime s' = startTime s).
Proof.
  cbv zeta.
  assert (Htotal : getTotalCycleTime (setExerciseType type s)
                   == match type with
                      | box => 16 | fourSevenEight => 19 | longExhale => 10
                      | coherent => 10
                      end)
    by (destruct type; reflexivity).
  split; [destruct type; reflexivity|].
  split.
  { destruct type; cbn; intros p H;
      repeat (destruct H as [<- | H]; [reflexivity|]); contradiction. }
  split; [exact Htotal|]. split.
  - intros start now Hnow. apply findPhase_active; [|exact Hnow].
    unfold getTotalCycleTime in Htotal. rewrite Htotal.
    destruct type; reflexivity.
  - destruct type; repeat split.
Qed.

(** Long exhale chosen over a stored exhale duration of 0. *)
Lemma setExerciseType_repairs_durations_witness :
  let s' := setExerciseType longExhale
              (loadSettings (Some (mkSettings None None None None (Some 0)))
                 initialState) in
  activeAt (getCurrentPhases s') (cyclePos (getCurrentPhases s') 0 5000)
    (fst (findPhase (getCurrentPhases s')
            (cyclePos (getCurrentPhases s') 0 5000))).
Proof.
  cbv zeta.
  apply (setExerciseType_repairs_durations longExhale
           (loadSettings (Some (mkSettings None None None None (Some 0)))
              initialState)).
  discriminate.
Defined.

(** ** Countdown and elapsed time *)

(** X12.  In a playing session whose phases have non-negative durations,
    a frame whose cycle position is [e] seconds into phase [k], with
    [0 <= e < d] for its duration [d], stores a countdown that is positive
    and at most [d] rounded up; it is a whole number unless it is [d]
    itself.  The countdown never shows 0 inside a phase. *)
Theorem countdown_is_positive (s : State) (now : Q) (k : nat) (e : Q) :
  isPlaying s = true ->
  (forall p, In p (getCurrentPhases s) -> 0 <= duration p) ->
  (k < List.length (getCurrentPhases s))%nat ->
  numIs (cycleElapsedAt now s) (accumulatedStart (getCurrentPhases s) k + e) ->
  0 <= e -> e < durationAt (getCurrentPhases s) k ->
  let d := durationAt (getCurrentPhases s) k in
  exists v, countdown (animate now s) = Num v
    /\ 0 < v /\ v <= inject_Z (Qceiling d)
    /\ (v = d \/ exists z, v = inject_Z z /\ (1 <= z)%Z).
Proof.
  intros Hp Hpos Hk Hc He0 He1 d.
  destruct (countdown_in_phase s now k e Hp Hpos Hk Hc He0 He1) as [_ Hcd].
  fold d in Hcd, He1. rewrite Hcd. unfold countdownPolicy.
  destruct (fractional d && Qltb (inject_Z (Qfloor d)) (d - e)).
  - exists d. split; [reflexivity|]. split; [lra|].
    split; [apply Qle_ceiling | now left].
  - exists (inject_Z (Qceiling (d - e))). split; [reflexivity|].
    assert (Hz : (1 <= Qceiling (d - e))%Z).
    { pose proof (Qle_ceiling (d - e)) as H.
      assert (0 < inject_Z (Qceiling (d - e))) by lra.
      change 0 with (inject_Z 0) in H0. rewrite <- Zlt_Qlt in H0. lia. }
    split; [change 0 with (inject_Z 0); rewrite <- Zlt_Qlt; lia|].
    split.
    + rewrite <- Zle_Qle. apply Qceiling_resp_le. lra.
    + right. eexists. split; [reflexivity | exact Hz].
Qed.

Lemma countdown_is_positive_witness :
  exists v, countdown (animate 600 coherentSession) = Num v
    /\ 0 < v
    /\ v <= inject_Z (Qceiling (durationAt (getCurrentPhases coherentSession) 0))
    /\ (v = durationAt (getCurrentPhases coherentSession) 0
        \/ exists z, v = inject_Z z /\ (1 <= z)%Z).
Proof.
  apply (countdown_is_positive coherentSession 600 0 (6 # 10)).
  - reflexivity.
  - intros p [<- | [<- | []]]; discriminate.
  - simpl. lia.
  - vm_compute. reflexivity.
  - discriminate.
  - reflexivity.
Defined.

(** X13.  The elapsed whole seconds a frame stores are those of its clock
    reading: not negative once the clock has reached the start time, and
    never smaller for a later reading, also after an earlier frame of the
    same session. *)
Theorem totalTime_follows_clock (s : State) (now now' : Q) :
  isPlaying s = true -> now <= now' ->
  (startTimeValue s <= now -> (0 <= totalTime (animate now s))%Z)
  /\ (totalTime (animate now s) <= totalTime (animate now' s))%Z
  /\ (totalTime (animate now s)
      <= totalTime (animate now' (animate now s)))%Z.
Proof.
  intros Hp Hnow.
  assert (Hmono : (Qfloor (totalElapsedAt now s)
                   <= Qfloor (totalElapsedAt now' s))%Z).
  { apply Qfloor_resp_le. unfold totalElapsedAt.
    apply Qmult_le_compat_r; [lra | discriminate]. }
  rewrite !(animate_totalTime _ s Hp).
  split; [|split; [exact Hmono|]].
  - intro Hst. change 0%Z with (Qfloor 0). apply Qfloor_resp_le.
    unfold totalElapsedAt. apply Qle_shift_div_l; [reflexivity | lra].
  - destruct (isPlaying (animate now s)) eqn:Hp'.
    + rewrite (animate_totalTime now' _ Hp').
      unfold totalElapsedAt. rewrite animate_startTimeValue. exact Hmono.
    + rewrite (animate_idle now' _ Hp'), (animate_totalTime _ s Hp). lia.
Qed.

Lemma totalTime_follows_clock_witness :
  (totalTime (animate 600 coherentSession)
   <= totalTime (animate 4600 coherentSession))%Z.
Proof.
  apply (totalTime_follows_clock coherentSession 600 4600);
    [reflexivity | discriminate].
Defined.

(** X11.  In every state the page can reach, an enabled event leaves a set
    time-limit flag set, unless it is the reset button or the play/pause
    button pressed while playing. *)
Theorem time_limit_flag_stays_set (s : State) (e : Event) :
  reachable s -> enabled e s = true -> timeLimitReached s = true ->
  timeLimitReached (handle e s) = true
  \/ e = ClickReset
  \/ (isPlaying s = true
      /\ exists tPulse tStart now, e = ClickTogglePlay tPulse tStart now).
Proof. apply timeLimitReached_persists. Qed.

Lemma typedOne_flagged_reachable : reachable (animate 60000 typedOne).
Proof.
  apply (run_reachable (roundsEvents "1" ++ [Frame 60000]) initialState _
           initialState_reachable).
  vm_compute. reflexivity.
Qed.

(** A later frame of a session whose flag is set. *)
Lemma time_limit_flag_stays_set_witness :
  timeLimitReached (handle (Frame 61000) (animate 60000 typedOne)) = true
  \/ Frame 61000 = ClickReset
  \/ (isPlaying (animate 60000 typedOne) = true
      /\ exists tPulse tStart now,
           Frame 61000 = ClickTogglePlay tPulse tStart now).
Proof.
  apply (time_limit_flag_stays_set (animate 60000 typedOne) (Frame 61000)).
  - exact typedOne_flagged_reachable.
  - reflexivity.
  - vm_compute. reflexivity.
Defined.

(** ** The phase-time slider *)

(** X14.  On a pattern that has a slider, the slider handler stores the
    value where [render] reads it back, and the pattern then uses it: every
    phase of box and coherent breathing lasts the value, the exhale of the
    long-exhale pattern lasts the value after a 4-second inhale, and the
    cycle lasts four times the value, two times the value, or the value
    plus 4.  The other duration parameter and the exercise type are not
    changed. *)
Theorem slider_sets_phase_durations (value : Q) (s : State) :
  hasPhaseTimeSlider (exerciseType s) = true ->
  let s' := phaseTimeSliderInput value s in
  currentValue s' = value
  /\ exerciseType s' = exerciseType s
  /\ map duration (getCurrentPhases s')
     = match exerciseType s with
       | box => [value; value; value; value]
       | longExhale => [4; value]
       | _ => [value; value]
       end
  /\ getTotalCycleTime s'
     == match exerciseType s with
        | box => 4 * value
        | longExhale => 4 + value
        | _ => 2 * value
        end
  /\ match exerciseType s with
     | longExhale => phaseTime s' = phaseTime s
     | _ => exhaleDuration s' = exhaleDuration s
     end.
Proof.
  intros Hslider s'. subst s'.
  unfold phaseTimeSliderInput, currentValue, getTotalCycleTime,
    getCurrentPhases.
  destruct (exerciseType s) eqn:Et; try discriminate Hslider;
    cbn [exerciseType phaseTime exhaleDuration set_phaseTime
         set_exhaleDuration]; rewrite ?Et; cbn [getPhases map duration];
    (repeat split; try reflexivity);
    unfold totalCycle; cbn [fold_left duration]; ring.
Qed.

Lemma slider_sets_phase_durations_witness :
  currentValue (phaseTimeSliderInput (9 # 2)
                  (setExerciseType coherent initialState)) = 9 # 2.
Proof.
  apply (slider_sets_phase_durations (9 # 2)
           (setExerciseType coherent initialState)).
  reflexivity.
Defined.

(** ** Frames that follow closely *)

Section CloseFrames.

(** The remainder is the part left over after whole multiples of the
    divisor. *)
Lemma rem_unique (x y r' : Q) (q : Z) :
  0 < y -> 0 <= x -> x == y * inject_Z q + r' -> 0 <= r' -> r' < y ->
  exists r, rem x y = Num r /\ r == r'.
Proof.
  intros Hy Hx Hxq Hr0 Hr1. unfold rem.
  destruct (Qeq_bool y 0) eqn:E; [apply Qeq_bool_iff in E; lra|].
  eexists. split; [reflexivity|].
  assert (Hq : 0 <= x / y) by (apply Qle_shift_div_l; [assumption | lra]).
  rewrite (Qtrunc_nonneg _ Hq).
  assert (Hfloor : Qfloor (x / y) = q).
  { apply Qfloor_unique.
    - apply Qle_shift_div_l; [assumption|].
      setoid_replace (inject_Z q * y) with (y * inject_Z q) by ring. lra.
    - apply Qlt_shift_div_r; [assumption|].
      rewrite inject_Z_plus. change (inject_Z 1) with 1.
      setoid_replace ((inject_Z q + 1) * y) with (y * inject_Z q + y) by ring.
      lra. }
  rewrite Hfloor. lra.
Qed.

Lemma rem_decompose (x y : Q) :
  0 < y -> 0 <= x ->
  exists q r, rem x y = Num r /\ x == y * inject_Z q + r
              /\ 0 <= r /\ r < y.
Proof.
  intros Hy Hx. destruct (rem_range x y Hx Hy) as (r & Hr & Hr0 & Hr1).
  exists (Qtrunc (x / y)), r. split; [exact Hr|].
  split; [|split; assumption].
  unfold rem in Hr. destruct (Qeq_bool y 0); [discriminate|].
  inversion Hr. ring.
Qed.

Variable phases : list Phase.
Variable delta : Q.
Hypothesis delta_nonneg : 0 <= delta.
Hypothesis delta_short : forall p, In p phases -> delta < duration p.

Lemma close_durations_nonneg : forall p, In p phases -> 0 <= duration p.
Proof. intros p Hp. specialize (delta_short p Hp). lra. Qed.

Lemma close_duration_at (k : nat) :
  (k < List.length phases)%nat -> delta < durationAt phases k.
Proof. intro Hk. apply delta_short. unfold durationAt. now apply nth_In. Qed.

(** The next cycle position after [delta] more seconds lies in the same
    phase or in the next one, cyclically. *)
Lemma close_positions (x1 x2 : Q) (k1 : nat) (c1 : Q) :
  0 <= x1 -> x2 == x1 + delta ->
  rem x1 (totalCycle phases) = Num c1 ->
  (k1 < List.length phases)%nat ->
  activeAt phases (Num c1) k1 ->
  exists c2, rem x2 (totalCycle phases) = Num c2
    /\ (findPhase phases (Num c2) = (k1, accumulatedStart phases k1)
        \/ findPhase phases (Num c2)
           = ((S k1 mod List.length phases)%nat,
              accumulatedStart phases (S k1 mod List.length phases))).
Proof.
  intros Hx1 Hx2 Hc1 Hk1 [Hlo Hhi].
  pose proof close_durations_nonneg as Hnn.
  pose proof (close_duration_at k1 Hk1) as Hd1.
  set (T := totalCycle phases) in *.
  set (n := List.length phases) in *.
  assert (HT : accumulatedStart phases n = T)
    by apply accumulatedStart_total.
  assert (Hsucc : accumulatedStart phases (S k1)
                  == accumulatedStart phases k1 + durationAt phases k1)
    by (unfold accumulatedStart; rewrite startFrom_succ by exact Hk1;
        reflexivity).
  assert (Hle : accumulatedStart phases (S k1) <= T).
  { rewrite <- HT. apply accumulatedStart_mono; [exact Hnn | lia | lia]. }
  assert (Hacc0 : 0 <= accumulatedStart phases k1).
  { change 0 with (accumulatedStart phases 0).
    apply accumulatedStart_mono; [exact Hnn | lia | lia]. }
  assert (HTpos : 0 < T) by lra.
  destruct (rem_decompose x1 T HTpos Hx1) as (q & r & Hr & Hxq & Hr0 & Hr1).
  rewrite Hc1 in Hr. inversion Hr; subst r. clear Hr.
  destruct (Qlt_le_dec (c1 + delta) T) as [Hin | Hout].
  - (* the position stays inside the cycle *)
    destruct (rem_unique x2 T (c1 + delta) q HTpos ltac:(lra) ltac:(lra)
                ltac:(lra) Hin) as (c2 & Hc2 & Hc2v).
    exists c2. split; [exact Hc2|].
    destruct (Qlt_le_dec c2 (accumulatedStart phases (S k1))) as [Hsame | Hnext].
    + left. apply findPhase_in_phase
        with (e := c2 - accumulatedStart phases k1);
        [exact Hnn | exact Hk1 | ring | lra | lra].
    + right.
      assert (Hk2 : (S k1 < n)%nat).
      { destruct (Nat.eq_dec (S k1) n) as [E | E]; [|lia].
        rewrite E, HT in Hnext. lra. }
      rewrite Nat.mod_small by exact Hk2.
      pose proof (close_duration_at (S k1) Hk2) as Hd2.
      apply findPhase_in_phase
        with (e := c2 - accumulatedStart phases (S k1));
        [exact Hnn | exact Hk2 | ring | lra | lra].
  - (* the position passes the end of the cycle *)
    destruct (rem_unique x2 T (c1 + delta - T) (q + 1) HTpos ltac:(lra))
      as (c2 & Hc2 & Hc2v);
      [rewrite inject_Z_plus; change (inject_Z 1) with 1;
       setoid_replace (T * (inject_Z q + 1)) with (T * inject_Z q + T) by ring;
       lra | lra | lra |].
    exists c2. split; [exact Hc2|]. right.
    assert (Hlast : S k1 = n).
    { destruct (Nat.eq_dec (S k1) n) as [E | E]; [exact E|].
      assert (Hk2 : (S k1 < n)%nat) by lia.
      pose proof (close_duration_at (S k1) Hk2) as Hd2.
      assert (Hsucc2 : accumulatedStart phases (S (S k1))
                       == accumulatedStart phases (S k1)
                          + durationAt phases (S k1))
        by (unfold accumulatedStart; rewrite startFrom_succ by exact Hk2;
            reflexivity).
      assert (Hle2 : accumulatedStart phases (S (S k1)) <= T).
      { rewrite <- HT. apply accumulatedStart_mono; [exact Hnn | lia | lia]. }
      lra. }
    rewrite Hlast, Nat.Div0.mod_same.
    assert (H0n : (0 < n)%nat) by lia.
    pose proof (close_duration_at 0 H0n) as Hd0.
    apply findPhase_in_phase with (e := c2);
      [exact Hnn | exact H0n | | lra | lra].
    unfold accumulatedStart. rewrite startFrom_0. ring.
Qed.

End CloseFrames.

(** X15.  When two consecutive frames of a playing session read the clock
    at or after the start time and less than the shortest phase apart, the
    second frame finds the phase index where the first left it or on the
    next phase, cyclically: no phase is skipped, so no wraparound goes
    uncounted. *)
Theorem close_frames_skip_no_phase (s : State) (t1 t2 : Q) :
  isPlaying s = true ->
  startTimeValue s <= t1 -> t1 <= t2 ->
  (forall p, In p (getCurrentPhases s) -> (t2 - t1) / 1000 < duration p) ->
  let n := List.length (getCurrentPhases s) in
  let s1 := animate t1 s in
  let s2 := animate t2 s1 in
  count s2 = count s1 \/ count s2 = (S (count s1) mod n)%nat.
Proof.
  intros Hp Hst Ht Hshort n s1 s2.
  destruct (isPlaying s1) eqn:Hp1;
    [|left; subst s2; now rewrite animate_idle].
  subst s2. rewrite (animate_count t2 s1 Hp1).
  unfold newCountAt, cycleElapsedAt, getTotalCycleTime, totalElapsedAt.
  subst s1. rewrite animate_getCurrentPhases, animate_startTimeValue.
  rewrite (animate_count t1 s Hp).
  set (phases := getCurrentPhases s) in *.
  set (delta := (t2 - t1) / 1000) in *.
  assert (Hd0 : 0 <= delta)
    by (apply Qle_shift_div_l; [reflexivity | lra]).
  assert (Hx1 : 0 <= (t1 - startTimeValue s) / 1000)
    by (apply Qle_shift_div_l; [reflexivity | lra]).
  assert (Hnn : forall p, In p phases -> 0 <= duration p)
    by (intros p Hin; specialize (Hshort p Hin); lra).
  assert (Hne : phases <> []) by apply getCurrentPhases_nonempty.
  assert (HT : 0 < totalCycle phases).
  { pose proof (accumulatedStart_mono phases Hnn 1 (List.length phases)) as Hm.
    destruct phases as [|p rest] eqn:E; [congruence|].
    specialize (Hm ltac:(simpl; lia) (Nat.le_refl _)).
    rewrite accumulatedStart_total in Hm.
    unfold accumulatedStart in Hm. rewrite startFrom_succ in Hm by (simpl; lia).
    rewrite startFrom_0 in Hm.
    specialize (Hshort p (or_introl eq_refl)).
    change (durationAt (p :: rest) 0) with (duration p) in Hm. lra. }
  pose proof (findPhase_active phases (startTimeValue s) t1 HT Hst) as Hact.
  pose proof (findPhase_index phases
                (cyclePos phases (startTimeValue s) t1) Hne) as Hidx.
  unfold newCountAt, cycleElapsedAt, getTotalCycleTime, totalElapsedAt.
  fold phases. unfold cyclePos in Hact, Hidx.
  destruct (rem ((t1 - startTimeValue s) / 1000) (totalCycle phases))
    as [c1|] eqn:Hc1; [|contradiction].
  destruct (close_positions phases delta Hd0 Hshort
              ((t1 - startTimeValue s) / 1000)
              ((t2 - startTimeValue s) / 1000)
              (fst (findPhase phases (Num c1))) c1 Hx1
              ltac:(unfold delta; field) Hc1 Hidx Hact)
    as (c2 & Hc2 & [Hsame | Hnext]).
  - left. now rewrite Hc2, Hsame.
  - right. now rewrite Hc2, Hnext.
Qed.

(** Box breathing: frames 3.9 s and 4.1 s after the start. *)
Lemma close_frames_skip_no_phase_witness :
  count (animate 4100 (animate 3900 boxMinuteSession))
  = count (animate 3900 boxMinuteSession)
  \/ count (animate 4100 (animate 3900 boxMinuteSession))
     = (S (count (animate 3900 boxMinuteSession))
        mod List.length (getCurrentPhases boxMinuteSession))%nat.
Proof.
  apply (close_frames_skip_no_phase boxMinuteSession 3900 4100).
  - reflexivity.
  - discriminate.
  - discriminate.
  - intros p [<- | [<- | [<- | [<- | []]]]]; reflexivity.
Defined.
